(** * opencx, package match: auction orders and their encrypted envelope

    A shallow embedding of the file of package [match] that declares
    [AuctionOrder] and [EncryptedAuctionOrder]: the wire codec of an order
    ([Serialize], [SerializeSignable], [Deserialize]), its price
    arithmetic ([Price], [SetAmountWant]), the time-lock wrapping
    ([TurnIntoEncryptedOrder]), the solver step
    ([SolveRC5AuctionOrderAsync]) and the gob envelope of
    [EncryptedAuctionOrder].

    Conventions.
    - a Go [byte] is [Byte.byte]; [uint64] is a [Z] in [0, 2^64) with the
      wrap-around written out where a conversion can wrap;
    - a fixed-size array [[n]byte] is [vec byte n];
    - a slice [[]byte] used as decoder input is a [Slice]: its visible
      elements and the rest of its backing array up to the capacity, since
      Go checks [s[:n]] against [cap(s)] and [s[n:]] against [len(s)];
    - [float64] is [spec_float] at precision 53 and exponent bound 1024;
    - a run-time panic is the [Panic] outcome of the [result] monad; a Go
      [error] return value is an [option error] next to the other results. *)

From Stdlib Require Import ZArith QArith Qabs List Lia Bool.
From Stdlib Require Import Strings.Byte.
From Stdlib Require Import Floats.SpecFloat.
From stdpp Require Import base list vector strings gmap.

Local Open Scope Z_scope.

(** ** Outcomes: values and panics *)

Inductive result (A : Type) : Type :=
  | Ret (x : A)
  | Panic.
Arguments Ret {A} x.
Arguments Panic {A}.

#[global] Instance result_ret : MRet result := fun A x => Ret x.
#[global] Instance result_bind : MBind result := fun A B k r =>
  match r with
  | Ret x => k x
  | Panic => Panic
  end.

(** ** Bytes and unsigned 64-bit integers *)

Definition uint64_max : Z := 2 ^ 64 - 1.
Definition int_max : Z := 2 ^ 63 - 1.

Definition is_uint64 (v : Z) : Prop := 0 <= v <= uint64_max.

Definition byte_to_Z (b : byte) : Z := Z.of_N (Byte.to_N b).

(** [byte(v)]: the conversion keeps the low eight bits. *)
Definition byte_of_Z (v : Z) : byte :=
  match Byte.of_N (Z.to_N (Z.land v 255)) with
  | Some b => b
  | None => x00
  end.

(** [binary.LittleEndian.PutUint64] on a fresh [make([]byte, 8)]. *)
Definition PutUint64 (v : Z) : list byte :=
  [ byte_of_Z v;
    byte_of_Z (Z.shiftr v 8);
    byte_of_Z (Z.shiftr v 16);
    byte_of_Z (Z.shiftr v 24);
    byte_of_Z (Z.shiftr v 32);
    byte_of_Z (Z.shiftr v 40);
    byte_of_Z (Z.shiftr v 48);
    byte_of_Z (Z.shiftr v 56) ].

(** [binary.LittleEndian.Uint64]: the bounds check [_ = b[7]] panics on
    fewer than eight bytes. *)
Definition Uint64 (b : list byte) : result Z :=
  match b with
  | b0 :: b1 :: b2 :: b3 :: b4 :: b5 :: b6 :: b7 :: _ =>
      Ret (Z.lor (byte_to_Z b0)
          (Z.lor (Z.shiftl (byte_to_Z b1) 8)
          (Z.lor (Z.shiftl (byte_to_Z b2) 16)
          (Z.lor (Z.shiftl (byte_to_Z b3) 24)
          (Z.lor (Z.shiftl (byte_to_Z b4) 32)
          (Z.lor (Z.shiftl (byte_to_Z b5) 40)
          (Z.lor (Z.shiftl (byte_to_Z b6) 48)
                 (Z.shiftl (byte_to_Z b7) 56))))))))
  | _ => Panic
  end.

(** ** Arrays and slices *)

(** [copy(dst[:], src)] into an array of [n] bytes: the first
    [min n (len src)] elements are overwritten. *)
Definition copy {n : nat} (dst : vec byte n) (src : list byte) : vec byte n :=
  fun_to_vec (fun i : fin n =>
    match src !! (fin_to_nat i) with
    | Some b => b
    | None => dst !!! i
    end).

(** A slice seen from its first element: [elems] are the [len] visible
    bytes, [spare] the bytes of the backing array between [len] and [cap]. *)
Record Slice : Type := mkSlice {
  elems : list byte;
  spare : list byte
}.

Definition len (s : Slice) : Z := Z.of_nat (length (elems s)).
Definition cap (s : Slice) : Z :=
  Z.of_nat (length (elems s)) + Z.of_nat (length (spare s)).

(** A slice that fills its backing array, as [make([]byte, n)] gives. *)
Definition full (l : list byte) : Slice := mkSlice l [].

(** [s[:n]] panics unless [0 <= n <= cap(s)]. *)
Definition slice_to (s : Slice) (n : Z) : result Slice :=
  if (0 <=? n) && (n <=? cap s) then
    Ret (mkSlice (take (Z.to_nat n) (elems s ++ spare s))
                 (drop (Z.to_nat n) (elems s ++ spare s)))
  else Panic.

(** [s[n:]] panics unless [0 <= n <= len(s)]. *)
Definition slice_from (s : Slice) (n : Z) : result Slice :=
  if (0 <=? n) && (n <=? len s) then
    Ret (mkSlice (drop (Z.to_nat n) (elems s)) (spare s))
  else Panic.

(** ** Errors

    One constructor per [fmt.Errorf] site of the file; wrapped causes are
    kept, message texts are not. *)

Inductive error : Type :=
  | ErrPairLength
  | ErrOrderTooShort (n : Z)
  | ErrPairInOrder (cause : error)
  | ErrZeroAmountWant
  | ErrNotBuyOrSell
  | ErrPriceNotPositive
  | ErrInvalidSide
  | ErrSolvingPuzzle (cause : error)
  | ErrDeserializingSolved (cause : error)
  | ErrCreatingPuzzle (cause : error)
  | ErrEncodingEnvelope (cause : error)
  | ErrDecodingEnvelope (cause : error)
  | ErrCollaborator (msg : string).

(** ** Trading pairs *)

(** Modelled from the spec: the type [Pair] and its methods [Serialize],
    [Deserialize] and [Size] are declared in another file of the package;
    the spec gives the trading pair as a two-byte code, and the layout
    comment of [AuctionOrder.Serialize] as [trading pair [2 bytes]]. *)
Record Pair : Type := mkPair {
  AssetWant : byte;
  AssetHave : byte
}.

Definition Pair_Serialize (p : Pair) : list byte := [AssetWant p; AssetHave p].

Definition Pair_Deserialize (p : Pair) (buf : list byte) : Pair * option error :=
  match buf with
  | [w; h] => (mkPair w h, None)
  | _ => (p, Some ErrPairLength)
  end.

Definition Pair_Size (p : Pair) : Z := 2.

(** ** Auction orders *)

Definition float64 : Type := spec_float.

Record AuctionOrder : Type := mkAuctionOrder {
  Pubkey : vec byte 33;
  Side : string;
  TradingPair : Pair;
  AmountHave : Z;
  AmountWant : Z;
  OrderbookPrice : float64;
  AuctionID : vec byte 32;
  Nonce : vec byte 2;
  Signature : list byte
}.

Definition set_Pubkey (v : vec byte 33) (a : AuctionOrder) : AuctionOrder :=
  mkAuctionOrder v (Side a) (TradingPair a) (AmountHave a) (AmountWant a)
    (OrderbookPrice a) (AuctionID a) (Nonce a) (Signature a).
Definition set_Side (v : string) (a : AuctionOrder) : AuctionOrder :=
  mkAuctionOrder (Pubkey a) v (TradingPair a) (AmountHave a) (AmountWant a)
    (OrderbookPrice a) (AuctionID a) (Nonce a) (Signature a).
Definition set_TradingPair (v : Pair) (a : AuctionOrder) : AuctionOrder :=
  mkAuctionOrder (Pubkey a) (Side a) v (AmountHave a) (AmountWant a)
    (OrderbookPrice a) (AuctionID a) (Nonce a) (Signature a).
Definition set_AmountHave (v : Z) (a : AuctionOrder) : AuctionOrder :=
  mkAuctionOrder (Pubkey a) (Side a) (TradingPair a) v (AmountWant a)
    (OrderbookPrice a) (AuctionID a) (Nonce a) (Signature a).
Definition set_AmountWant (v : Z) (a : AuctionOrder) : AuctionOrder :=
  mkAuctionOrder (Pubkey a) (Side a) (TradingPair a) (AmountHave a) v
    (OrderbookPrice a) (AuctionID a) (Nonce a) (Signature a).
Definition set_OrderbookPrice (v : float64) (a : AuctionOrder) : AuctionOrder :=
  mkAuctionOrder (Pubkey a) (Side a) (TradingPair a) (AmountHave a)
    (AmountWant a) v (AuctionID a) (Nonce a) (Signature a).
Definition set_AuctionID (v : vec byte 32) (a : AuctionOrder) : AuctionOrder :=
  mkAuctionOrder (Pubkey a) (Side a) (TradingPair a) (AmountHave a)
    (AmountWant a) (OrderbookPrice a) v (Nonce a) (Signature a).
Definition set_Nonce (v : vec byte 2) (a : AuctionOrder) : AuctionOrder :=
  mkAuctionOrder (Pubkey a) (Side a) (TradingPair a) (AmountHave a)
    (AmountWant a) (OrderbookPrice a) (AuctionID a) v (Signature a).
Definition set_Signature (v : list byte) (a : AuctionOrder) : AuctionOrder :=
  mkAuctionOrder (Pubkey a) (Side a) (TradingPair a) (AmountHave a)
    (AmountWant a) (OrderbookPrice a) (AuctionID a) (Nonce a) v.

(** The zero value that [new(AuctionOrder)] allocates. *)
Definition zero_AuctionOrder : AuctionOrder :=
  mkAuctionOrder (vreplicate 33 x00) EmptyString (mkPair x00 x00) 0 0
    (S754_zero false) (vreplicate 32 x00) (vreplicate 2 x00) [].

(** What the Go types guarantee of an order held in memory: both amounts
    are [uint64], [len(a.Side)] and [len(a.Signature)] are [int]. *)
Definition wf_AuctionOrder (a : AuctionOrder) : Prop :=
  is_uint64 (AmountHave a) /\ is_uint64 (AmountWant a) /\
  Z.of_nat (String.length (Side a)) <= int_max /\
  Z.of_nat (length (Signature a)) <= int_max.

Definition IsBuySide (a : AuctionOrder) : bool := String.eqb (Side a) "buy".
Definition IsSellSide (a : AuctionOrder) : bool := String.eqb (Side a) "sell".

(** The invariant of the data model: a valid order is a well-formed one
    whose side is one of the two values. *)
Definition valid_AuctionOrder (a : AuctionOrder) : Prop :=
  wf_AuctionOrder a /\ (IsBuySide a = true \/ IsSellSide a = true).

Definition OppositeSide (a : AuctionOrder) : string :=
  if IsBuySide a then "sell"
  else if IsSellSide a then "buy"
  else EmptyString.

(** *** The wire codec *)

(** [uint64(len(x))] of a non-negative [int]. *)
Definition uint64_of_len (n : nat) : Z := Z.of_nat n mod 2 ^ 64.

Definition SerializeSignable (a : AuctionOrder) : list byte :=
  let buf := [] in
  let buf := buf ++ vec_to_list (Pubkey a) in
  let buf := buf ++ Pair_Serialize (TradingPair a) in
  let amountHaveBytes := PutUint64 (AmountHave a) in
  let buf := buf ++ amountHaveBytes in
  let amountWantBytes := PutUint64 (AmountWant a) in
  let buf := buf ++ amountWantBytes in
  let lenSideBytes := PutUint64 (uint64_of_len (String.length (Side a))) in
  let buf := buf ++ lenSideBytes in
  let buf := buf ++ String.list_byte_of_string (Side a) in
  let buf := buf ++ vec_to_list (AuctionID a) in
  let buf := buf ++ vec_to_list (Nonce a) in
  buf.

Definition Serialize (a : AuctionOrder) : list byte :=
  let buf := [] in
  let buf := buf ++ vec_to_list (Pubkey a) in
  let buf := buf ++ Pair_Serialize (TradingPair a) in
  let amountHaveBytes := PutUint64 (AmountHave a) in
  let buf := buf ++ amountHaveBytes in
  let amountWantBytes := PutUint64 (AmountWant a) in
  let buf := buf ++ amountWantBytes in
  let lenSideBytes := PutUint64 (uint64_of_len (String.length (Side a))) in
  let buf := buf ++ lenSideBytes in
  let buf := buf ++ String.list_byte_of_string (Side a) in
  let buf := buf ++ vec_to_list (AuctionID a) in
  let buf := buf ++ vec_to_list (Nonce a) in
  let lenSigBytes := PutUint64 (uint64_of_len (length (Signature a))) in
  let buf := buf ++ lenSigBytes in
  let buf := buf ++ Signature a in
  buf.

(** [binary.Size] of a [float64] and of a [uint64] value. *)
Definition binary_Size_float64 : Z := 8.
Definition binary_Size_uint64 : Z := 8.

Definition minimumDataLength (a : AuctionOrder) : Z :=
  Z.of_nat (length (vec_to_list (Nonce a))) +
  Z.of_nat (length (vec_to_list (AuctionID a))) +
  binary_Size_float64 +
  binary_Size_uint64 +
  binary_Size_uint64 +
  Pair_Size (TradingPair a) +
  Z.of_nat (length (vec_to_list (Pubkey a))).

(** [Deserialize] mutates its receiver [a] field by field; the receiver
    as left by the call is returned with the error. A panic leaves no
    result. *)
Definition Deserialize (a : AuctionOrder) (data : Slice)
  : result (AuctionOrder * option error) :=
  if len data <? minimumDataLength a then
    Ret (a, Some (ErrOrderTooShort (len data)))
  else
    s ← slice_to data 33;
    let a := set_Pubkey (copy (Pubkey a) (elems s)) a in
    data ← slice_from data 33;
    s ← slice_to data 2;
    let tradingPairBytes := copy (vreplicate 2 x00) (elems s) in
    let '(p, err) := Pair_Deserialize (TradingPair a) (vec_to_list tradingPairBytes) in
    let a := set_TradingPair p a in
    match err with
    | Some e => Ret (a, Some (ErrPairInOrder e))
    | None =>
        data ← slice_from data 2;
        s ← slice_to data 8;
        v ← Uint64 (elems s);
        let a := set_AmountHave v a in
        data ← slice_from data 8;
        s ← slice_to data 8;
        v ← Uint64 (elems s);
        let a := set_AmountWant v a in
        data ← slice_from data 8;
        s ← slice_to data 8;
        sideLen ← Uint64 (elems s);
        data ← slice_from data 8;
        s ← slice_to data sideLen;
        let a := set_Side (String.string_of_list_byte (elems s)) a in
        data ← slice_from data sideLen;
        s ← slice_to data 32;
        let a := set_AuctionID (copy (AuctionID a) (elems s)) a in
        data ← slice_from data 32;
        s ← slice_to data 2;
        let a := set_Nonce (copy (Nonce a) (elems s)) a in
        data ← slice_from data 2;
        s ← slice_to data 8;
        sigLen ← Uint64 (elems s);
        data ← slice_from data 8;
        s ← slice_to data sigLen;
        let a := set_Signature (elems s) a in
        _ ← slice_from data sigLen;
        Ret (a, None)
    end.

(** *** Prices *)

Definition f64_zero : float64 := S754_zero false.
Definition f64_mul : float64 -> float64 -> float64 := SFmul 53 1024.
Definition f64_div : float64 -> float64 -> float64 := SFdiv 53 1024.
Definition f64_leb : float64 -> float64 -> bool := SFleb.

(** [float64(v)] of a [uint64]: rounded to nearest, ties to even. *)
Definition float64_of_uint64 (v : Z) : float64 :=
  binary_normalize 53 1024 v 0 false.

(** The last step of [binary_round_aux] at binary64: the float built from
    the shifted mantissa and its exponent. *)
Definition finish_round (mrs : shr_record) (e : Z) : spec_float :=
  match shr_m mrs with
  | Z0 => S754_zero false
  | Zpos m => if e <=? 1024 - 53 then S754_finite false m e else S754_infinity false
  | _ => S754_nan
  end.

(** The integer part of the magnitude [m * 2^e] ([Z.shiftl] shifts right
    on a negative [e]). *)
Definition magnitude_trunc (m : positive) (e : Z) : Z := Z.shiftl (Z.pos m) e.

Section FloatToUint64.

(** The Go specification leaves [uint64(f)] implementation-dependent
    when the truncated [f] is not a [uint64]; [out_of_range] stands for
    what the implementation at hand yields there. *)
Variable out_of_range : float64 -> Z.

Definition uint64_of_float64 (f : float64) : Z :=
  match f with
  | S754_zero _ => 0
  | S754_finite false m e =>
      let t := magnitude_trunc m e in
      if t <=? uint64_max then t else out_of_range f mod 2 ^ 64
  | S754_finite true m e =>
      if magnitude_trunc m e =? 0 then 0 else out_of_range f mod 2 ^ 64
  | _ => out_of_range f mod 2 ^ 64
  end.

Definition SetAmountWant (a : AuctionOrder) (price : float64)
  : AuctionOrder * option error :=
  if f64_leb price f64_zero then (a, Some ErrPriceNotPositive)
  else if IsBuySide a then
    (set_AmountWant
       (uint64_of_float64 (f64_mul (float64_of_uint64 (AmountHave a)) price)) a,
     None)
  else if IsSellSide a then
    (set_AmountWant
       (uint64_of_float64 (f64_div (float64_of_uint64 (AmountHave a)) price)) a,
     None)
  else (a, Some ErrInvalidSide).

End FloatToUint64.

(** [Price]: the named results start at [0] and [nil]; the sell branch
    assigns [price] and runs on to the statements after the conditional. *)
Definition Price (a : AuctionOrder) : float64 * option error :=
  if AmountWant a =? 0 then (f64_zero, Some ErrZeroAmountWant)
  else if IsBuySide a then
    (f64_div (float64_of_uint64 (AmountWant a)) (float64_of_uint64 (AmountHave a)),
     None)
  else
    let price :=
      if IsSellSide a then
        f64_div (float64_of_uint64 (AmountHave a)) (float64_of_uint64 (AmountWant a))
      else f64_zero in
    (price, Some ErrNotBuyOrSell).

(** The rational a finite [float64] denotes. *)
Definition float64_to_Q (f : float64) : option Q :=
  match f with
  | S754_zero _ => Some (0 # 1)%Q
  | S754_finite s m e =>
      let n := if s then Z.neg m else Z.pos m in
      Some match e with
           | Z0 => (n # 1)%Q
           | Z.pos k => (n * Z.pos (2 ^ k) # 1)%Q
           | Z.neg k => (n # 2 ^ k)%Q
           end
  | _ => None
  end.

(** [r] is [q] with its fraction dropped, for a [q] that is not negative. *)
Definition is_truncation (q : Q) (r : Z) : Prop :=
  (inject_Z r <= q)%Q /\ (q < inject_Z (r + 1))%Q.

(** Follows the specification's wording [round(x)]: [r] is an integer
    nearest to [q]. *)
Definition is_rounding (q : Q) (r : Z) : Prop :=
  (Qabs (q - inject_Z r) <= 1 # 2)%Q.

(** ** Encrypted orders *)

(** Modelled from the spec: each puzzle variant has a payload shape of
    its own; the encoder of its fields and the matching decoder, which
    [encoding/gob] derives from the type, are what a variant brings. *)
Class GobCodec (T : Type) : Type := {
  GobEncode : T -> list byte;
  GobDecode : list byte -> option T
}.

(** A Go type as the gob registry sees it, by its qualified name. *)
Abbreviation gobType := string (only parsing).

Definition type_PuzzleRSW : gobType := "rsw.PuzzleRSW".
Definition type_HashTimelock : gobType := "hashtimelock.HashTimelock".
Definition type_Puzzle : gobType := "crypto.Puzzle".
Definition type_EncryptedAuctionOrder : gobType := "match.EncryptedAuctionOrder".

(** The names [gob.Register] derives for pointers to the two puzzle types. *)
Definition name_PuzzleRSW : string := "*rsw.PuzzleRSW".
Definition name_HashTimelock : string := "*hashtimelock.HashTimelock".

(** Modelled from the spec: the tag-to-decoder table of the envelope
    codec, which [encoding/gob] keeps as registration state of the whole
    process, by name and by type. *)
Record Registry : Type := mkRegistry {
  nameToConcreteType : gmap string gobType;
  concreteTypeToName : gmap gobType string
}.

Definition empty_Registry : Registry := mkRegistry ∅ ∅.

(** Modelled from the spec: registration of a variant, as
    [gob.RegisterName] does it: both maps are filled unless already set;
    a name bound to another type, or a type bound to another name,
    panics. *)
Definition RegisterName (name : string) (ty : gobType) (r : Registry)
  : result Registry :=
  if String.eqb name "" then Panic
  else
    r1 ← match nameToConcreteType r !! name with
         | Some t => if String.eqb t ty then Ret r else Panic
         | None => Ret (mkRegistry (<[name := ty]> (nameToConcreteType r))
                                   (concreteTypeToName r))
         end;
    match concreteTypeToName r1 !! ty with
    | Some n => if String.eqb n name then Ret r1 else Panic
    | None => Ret (mkRegistry (nameToConcreteType r1)
                              (<[ty := name]> (concreteTypeToName r1)))
    end.

(** The four registrations that open both [Serialize] and [Deserialize]. *)
Definition register_all (r : Registry) : result Registry :=
  r ← RegisterName name_PuzzleRSW type_PuzzleRSW r;
  r ← RegisterName name_HashTimelock type_HashTimelock r;
  r ← RegisterName "puzzle" type_Puzzle r;
  RegisterName "order" type_EncryptedAuctionOrder r.

(** Modelled from the spec: a length-prefixed byte string of the envelope
    wire layout, and its reader. *)
Definition put_bytes (l : list byte) : list byte :=
  PutUint64 (uint64_of_len (length l)) ++ l.

Definition get_bytes (raw : list byte) : option (list byte * list byte) :=
  match Uint64 raw with
  | Ret n =>
      let rest := drop 8 raw in
      if n <=? Z.of_nat (length rest)
      then Some (take (Z.to_nat n) rest, drop (Z.to_nat n) rest)
      else None
  | Panic => None
  end.

Definition ErrGob (msg : string) : error := ErrCollaborator msg.

Section Envelope.

(** Modelled from the spec: the two puzzle variants [rsw.PuzzleRSW] and
    [hashtimelock.HashTimelock] are declared in other packages of the
    repository; the spec gives each a payload shape of its own behind
    one tag dispatch. *)
Context {PuzzleRSW HashTimelock : Type}.
Context {codecRSW : GobCodec PuzzleRSW} {codecHTL : GobCodec HashTimelock}.

(** A value of the interface [crypto.Puzzle]: nil, one of the two
    variants, or a value of some other implementing type, the latter
    given by its type and its encoded fields. *)
Inductive Puzzle : Type :=
  | NilPuzzle
  | RSW (p : PuzzleRSW)
  | HTL (h : HashTimelock)
  | OtherPuzzle (ty : gobType) (fields : list byte).

Definition dynamic_type (p : Puzzle) : gobType :=
  match p with
  | NilPuzzle => ""
  | RSW _ => type_PuzzleRSW
  | HTL _ => type_HashTimelock
  | OtherPuzzle ty _ => ty
  end.


Record EncryptedAuctionOrder : Type := mkEncryptedAuctionOrder {
  OrderCiphertext : list byte;
  OrderPuzzle : Puzzle;
  IntendedAuction : vec byte 32
}.

Definition zero_EncryptedAuctionOrder : EncryptedAuctionOrder :=
  mkEncryptedAuctionOrder [] NilPuzzle (vreplicate 32 x00).

(** The encoded fields of the value behind the interface. *)
Definition payload_of (p : Puzzle) : list byte :=
  match p with
  | NilPuzzle => []
  | RSW x => GobEncode x
  | HTL h => GobEncode h
  | OtherPuzzle _ fields => fields
  end.


(** *** The gob envelope *)

(** Modelled from the spec: the encoder of [encoding/gob] is a library
    outside the repository. The value behind the interface
    [crypto.Puzzle] is written as its variant tag and its
    variant-specific payload; the tag is the name the type of the value
    is registered under, the empty name stands for nil, and a value
    whose type has no registered name is refused. *)
Definition gobEncodePuzzle (r : Registry) (p : Puzzle) : list byte + error :=
  match p with
  | NilPuzzle => inl (put_bytes [])
  | _ =>
      match concreteTypeToName r !! dynamic_type p with
      | None => inr (ErrGob "type not registered for interface")
      | Some name =>
          inl (put_bytes (String.list_byte_of_string name) ++
               put_bytes (payload_of p))
      end
  end.

(** Modelled from the spec: the mark the encoder of [encoding/gob], a
    library outside the repository, writes in front of a field it sends:
    the distance of the field's number from the number of the field sent
    before it. *)
Definition fieldDelta (field fieldnum : Z) : byte := byte_of_Z (field - fieldnum).

(** Modelled from the spec: the encoder of [encoding/gob] is a library
    outside the repository. The envelope wire layout is
    [orderCiphertext] (length-prefixed bytes), [orderPuzzle] (variant
    tag and variant-specific payload), [intendedAuction] (32 bytes).
    The fields are written the way gob writes a struct: the fields are
    numbered from 0, each field that is sent follows its [fieldDelta]
    (counted from -1 at the start), a zero ends the struct, and a field
    that holds the zero value of its type is not sent, unless it is an
    array: an empty ciphertext and a nil puzzle are left out, the
    auction is always there. The struct travels as one message, which
    carries its length in front. *)
Definition gobEncode (r : Registry) (e : EncryptedAuctionOrder)
  : list byte + error :=
  let fieldnum := -1 in
  let '(ct, fieldnum) :=
    match OrderCiphertext e with
    | [] => ([], fieldnum)
    | b => (fieldDelta 0 fieldnum :: put_bytes b, 0)
    end in
  let puzzle :=
    match OrderPuzzle e with
    | NilPuzzle => inl ([], fieldnum)
    | p =>
        match gobEncodePuzzle r p with
        | inr err => inr err
        | inl b => inl (fieldDelta 1 fieldnum :: b, 1)
        end
    end in
  match puzzle with
  | inr err => inr err
  | inl (pz, fieldnum) =>
      inl (put_bytes
             (ct ++ pz ++
              fieldDelta 2 fieldnum :: vec_to_list (IntendedAuction e) ++ [x00]))
  end.

(** Modelled from the spec: the decoder of [encoding/gob] is a library
    outside the repository. Decoding the value behind the interface
    dispatches on the tag through the table of registered names and
    fails on a tag that is not in it; the value is built afresh by the
    decoder of its variant. *)
Definition gobDecodePuzzle (r : Registry) (raw : list byte)
  : (Puzzle * list byte) + error :=
  match get_bytes raw with
  | None => inr (ErrGob "unexpected EOF")
  | Some ([], rest) => inl (NilPuzzle, rest)
  | Some (tag, rest) =>
      match nameToConcreteType r !! String.string_of_list_byte tag with
      | None => inr (ErrGob "name not registered for interface")
      | Some ty =>
          match get_bytes rest with
          | None => inr (ErrGob "unexpected EOF")
          | Some (payload, rest) =>
              if String.eqb ty type_PuzzleRSW then
                match GobDecode payload with
                | Some x => inl (RSW x, rest)
                | None => inr (ErrGob "bad payload")
                end
              else if String.eqb ty type_HashTimelock then
                match GobDecode payload with
                | Some h => inl (HTL h, rest)
                | None => inr (ErrGob "bad payload")
                end
              else if String.eqb ty type_Puzzle
                      || String.eqb ty type_EncryptedAuctionOrder then
                inr (ErrGob "type is not assignable to crypto.Puzzle")
              else inl (OtherPuzzle ty payload, rest)
          end
      end
  end.

(** Modelled from the spec: the decoder of [encoding/gob] is a library
    outside the repository. One field of the envelope, by its number,
    read from [raw] into the receiver [e]; the other fields of [e] stay
    as they are. *)
Definition gobDecodeField (r : Registry) (field : Z)
    (e : EncryptedAuctionOrder) (raw : list byte)
  : (EncryptedAuctionOrder * list byte) + error :=
  if field =? 0 then
    match get_bytes raw with
    | None => inr (ErrGob "unexpected EOF")
    | Some (ct, rest) =>
        inl (mkEncryptedAuctionOrder ct (OrderPuzzle e) (IntendedAuction e), rest)
    end
  else if field =? 1 then
    match gobDecodePuzzle r raw with
    | inr err => inr err
    | inl (pz, rest) =>
        inl (mkEncryptedAuctionOrder (OrderCiphertext e) pz (IntendedAuction e),
             rest)
    end
  else if field =? 2 then
    if Z.of_nat (length raw) <? 32 then inr (ErrGob "unexpected EOF")
    else
      inl (mkEncryptedAuctionOrder (OrderCiphertext e) (OrderPuzzle e)
             (copy (IntendedAuction e) (take 32 raw)),
           drop 32 raw)
  else inr (ErrGob "field number out of range").

(** Modelled from the spec: the decoder of [encoding/gob] is a library
    outside the repository. The fields that are in the stream are read
    into the receiver one after the other, up to the zero that ends the
    struct or to the first error; a field that is not in the stream
    leaves the receiver's field as it was before the call. Field
    numbers only grow, so that no more than [n] fields are read when
    [n] fields are left. *)
Fixpoint gobDecodeFields (n : nat) (r : Registry) (fieldnum : Z)
    (e : EncryptedAuctionOrder) (raw : list byte)
  : EncryptedAuctionOrder * option error :=
  match raw with
  | [] => (e, Some (ErrGob "unexpected EOF"))
  | d :: raw =>
      if byte_to_Z d =? 0 then (e, None)
      else
        match n with
        | O => (e, Some (ErrGob "field number out of range"))
        | S n =>
            match gobDecodeField r (fieldnum + byte_to_Z d) e raw with
            | inr err => (e, Some err)
            | inl (e, raw) => gobDecodeFields n r (fieldnum + byte_to_Z d) e raw
            end
        end
  end.

(** Modelled from the spec: [Decode] of [encoding/gob] into the receiver
    [e], a struct of three fields. The message is taken whole from the
    input before a field is read: input that stops short of the length
    the message announces is refused with the receiver untouched. *)
Definition gobDecode (r : Registry) (e : EncryptedAuctionOrder) (raw : list byte)
  : EncryptedAuctionOrder * option error :=
  match get_bytes raw with
  | None => (e, Some (ErrGob "unexpected EOF"))
  | Some (message, _) => gobDecodeFields 3 r (-1) e message
  end.


(** [EncryptedAuctionOrder.Serialize]; the registry of the process is
    passed in and out. *)
Definition Envelope_Serialize (r : Registry) (e : EncryptedAuctionOrder)
  : result (Registry * (list byte * option error)) :=
  r ← RegisterName name_PuzzleRSW type_PuzzleRSW r;
  r ← RegisterName name_HashTimelock type_HashTimelock r;
  r ← RegisterName "puzzle" type_Puzzle r;
  r ← RegisterName "order" type_EncryptedAuctionOrder r;
  match gobEncode r e with
  | inr err => Ret (r, ([], Some (ErrEncodingEnvelope err)))
  | inl raw => Ret (r, (raw, None))
  end.

(** [EncryptedAuctionOrder.Deserialize] *)
Definition Envelope_Deserialize (r : Registry) (e : EncryptedAuctionOrder)
    (raw : list byte)
  : result (Registry * (EncryptedAuctionOrder * option error)) :=
  r ← RegisterName name_PuzzleRSW type_PuzzleRSW r;
  r ← RegisterName name_HashTimelock type_HashTimelock r;
  r ← RegisterName "puzzle" type_Puzzle r;
  r ← RegisterName "order" type_EncryptedAuctionOrder r;
  match gobDecode r e raw with
  | (e, Some err) => Ret (r, (e, Some (ErrDecodingEnvelope err)))
  | (e, None) => Ret (r, (e, None))
  end.

(** *** Wrapping and solving *)

(** The puzzle algebra of package [timelockencoders], declared outside
    this file: [CreateRSW2048A2PuzzleRC5] draws on a source of
    randomness [Rand]; [SolvePuzzleRC5] returns the recovered bytes. *)
Context {Rand : Type}.
Variable CreateRSW2048A2PuzzleRC5 :
  Rand -> Z -> list byte -> list byte * Puzzle * option error.
Variable SolvePuzzleRC5 : list byte -> Puzzle -> Slice * option error.

Definition TurnIntoEncryptedOrder (rnd : Rand) (a : AuctionOrder) (t : Z)
  : EncryptedAuctionOrder * option error :=
  let encrypted := zero_EncryptedAuctionOrder in
  let '(ct, pz, err) := CreateRSW2048A2PuzzleRC5 rnd t (Serialize a) in
  let encrypted := mkEncryptedAuctionOrder ct pz (IntendedAuction encrypted) in
  match err with
  | Some cause => (encrypted, Some (ErrCreatingPuzzle cause))
  | None =>
      (mkEncryptedAuctionOrder (OrderCiphertext encrypted) (OrderPuzzle encrypted)
         (AuctionID a),
       None)
  end.

(** Addresses of encrypted orders: [OrderPuzzleResult] holds a pointer
    to the order it comes from. *)
Definition loc : Type := positive.
Definition heap : Type := gmap loc EncryptedAuctionOrder.

Record OrderPuzzleResult : Type := mkOrderPuzzleResult {
  Encrypted : option loc;
  Auction : option AuctionOrder;
  Err : option error
}.

(** [SolveRC5AuctionOrderAsync]: [puzzleResChan] is the sequence of
    values sent on the channel so far; the values sent by the call are
    appended. Reading [e.OrderCiphertext] through a pointer that holds
    no order panics. *)
Definition SolveRC5AuctionOrderAsync (h : heap) (e : loc)
    (puzzleResChan : list OrderPuzzleResult)
  : result (list OrderPuzzleResult) :=
  let result := mkOrderPuzzleResult None None None in
  let result := mkOrderPuzzleResult (Some e) (Auction result) (Err result) in
  match h !! e with
  | None => Panic
  | Some enc =>
      let '(orderBytes, err) :=
        SolvePuzzleRC5 (OrderCiphertext enc) (OrderPuzzle enc) in
      match err with
      | Some cause =>
          let result := mkOrderPuzzleResult (Encrypted result) (Auction result)
                          (Some (ErrSolvingPuzzle cause)) in
          Ret (puzzleResChan ++ [result])
      | None =>
          '(auction, err) ← Deserialize zero_AuctionOrder orderBytes;
          let result := mkOrderPuzzleResult (Encrypted result) (Some auction)
                          (Err result) in
          match err with
          | Some cause =>
              let result := mkOrderPuzzleResult (Encrypted result) (Auction result)
                              (Some (ErrDeserializingSolved cause)) in
              Ret (puzzleResChan ++ [result])
          | None => Ret (puzzleResChan ++ [result])
          end
      end
  end.

End Envelope.

Arguments Puzzle : clear implicits.
Arguments EncryptedAuctionOrder : clear implicits.
Arguments OrderPuzzleResult : clear implicits.

(** ** Sample values *)

(** The [float64] values 2 and 0.75. *)
Definition f64_two : float64 := S754_finite false 4503599627370496 (-51).
Definition f64_three_quarters : float64 := S754_finite false 6755399441055744 (-53).


Definition sample_order (side : string) (have want : Z) : AuctionOrder :=
  mkAuctionOrder (vreplicate 33 x02) side (mkPair x00 x01) have want f64_zero
    (vreplicate 32 xaa) (vreplicate 2 x01) [x30; x45].

Definition sample_buy_order : AuctionOrder := sample_order "buy" 100 200.
Definition sample_sell_order : AuctionOrder := sample_order "sell" 200 100.

(** Ninety-three zero bytes: as long as [minimumDataLength], shorter than
    the fixed-width fields of the layout. *)
Definition short_order_bytes : list byte := replicate 93 x00.

(** A toy puzzle algebra for examples: both variants carry one boolean,
    the ciphertext is the payload itself and solving returns it. *)
Definition toy_codec : GobCodec bool := {|
  GobEncode := fun b : bool => [if b then x01 else x00];
  GobDecode := fun l =>
    match l with
    | [x00] => Some false
    | [x01] => Some true
    | _ => None
    end
|}.

Definition toy_create (rnd : unit) (t : Z) (payload : list byte)
  : list byte * Puzzle bool bool * option error :=
  (payload, RSW true, None).

Definition toy_solve (ct : list byte) (pz : Puzzle bool bool)
  : Slice * option error :=
  (full ct, None).

Definition toy_envelope (pz : Puzzle bool bool) : EncryptedAuctionOrder bool bool :=
  mkEncryptedAuctionOrder [x10; x20; x30] pz (vreplicate 32 xaa).

(** ** Package cxrpc: registering an account *)

(** The errors [Register] returns: an error of the server passed on as it
    is, or one wrapped by the deferred function of [Register]. *)
Inductive rpcError : Type :=
  | ErrServer (e : error)
  | ErrRegisteringUser (cause : error).

(** A [*coinparam.Params]: a key of the wallet map and of the address
    map, compared by identity. *)
Definition coinParams : Type := positive.

Section AccountCommands.

(** The server behind the RPC is declared outside this file:
    [PublicKey] stands for [*koblitz.PublicKey], and each of its methods
    is given by what it returns. *)
Context {PublicKey : Type}.
Variable RegistrationStringVerify : list byte -> PublicKey * option error.
Variable GetAddrForCoin : coinParams -> PublicKey -> string * option error.
Variable RegisterUser : PublicKey -> gmap coinParams string -> option error.

(** The calls [Register] makes on the server, in order. *)
Inductive ServerCall : Type :=
  | CallRegistrationStringVerify (sig : list byte)
  | CallGetAddrForCoin (param : coinParams) (pubkey : PublicKey)
  | CallLockIngests
  | CallRegisterUser (pubkey : PublicKey) (addrMap : gmap coinParams string)
  | CallUnlockIngests
  | CallLogInfof (pubkey : PublicKey).

Definition is_locking_call (c : ServerCall) : bool :=
  match c with
  | CallLockIngests | CallRegisterUser _ _ | CallUnlockIngests => true
  | _ => false
  end.

(** The loop [for param := range cl.Server.WalletMap]: [wallets] are the
    keys of the wallet map in the order this run of the loop visits them.
    The address returned is stored even when it comes with an error, and
    the first error ends the loop. *)
Fixpoint Register_addresses (pubkey : PublicKey) (wallets : list coinParams)
    (addrMap : gmap coinParams string) (calls : list ServerCall)
  : gmap coinParams string * list ServerCall * option error :=
  match wallets with
  | [] => (addrMap, calls, None)
  | param :: wallets =>
      let '(addr, err) := GetAddrForCoin param pubkey in
      let addrMap := <[param := addr]> addrMap in
      let calls := calls ++ [CallGetAddrForCoin param pubkey] in
      match err with
      | Some e => (addrMap, calls, Some e)
      | None => Register_addresses pubkey wallets addrMap calls
      end
  end.

(** [OpencxRPC.Register]: the calls made and the error returned. The
    deferred function that wraps the error is installed after the
    signature check. *)
Definition Register (signature : list byte) (wallets : list coinParams)
  : list ServerCall * option rpcError :=
  let calls := [CallRegistrationStringVerify signature] in
  let '(pubkey, err) := RegistrationStringVerify signature in
  match err with
  | Some e => (calls, Some (ErrServer e))
  | None =>
      let '(addrMap, calls, err) := Register_addresses pubkey wallets ∅ calls in
      match err with
      | Some e => (calls, Some (ErrRegisteringUser e))
      | None =>
          let calls := calls ++ [CallLockIngests] in
          let err := RegisterUser pubkey addrMap in
          let calls := calls ++ [CallRegisterUser pubkey addrMap] in
          match err with
          | Some e => (calls ++ [CallUnlockIngests], Some (ErrRegisteringUser e))
          | None => (calls ++ [CallUnlockIngests; CallLogInfof pubkey], None)
          end
      end
  end.

End AccountCommands.

(** A toy server for examples: the public key is the length of the
    signature, an empty signature is refused, every wallet has the same
    address and the database accepts every user. *)
Definition toy_verify (signature : list byte) : nat * option error :=
  match signature with
  | [] => (0%nat, Some (ErrCollaborator "empty signature"))
  | _ => (length signature, None)
  end.

Definition toy_get_addr (param : coinParams) (pubkey : nat) : string * option error :=
  ("addr", None).

Definition toy_register_user (pubkey : nat) (addrMap : gmap coinParams string)
  : option error :=
  None.

(** * Properties *)

(** ** Bytes and little-endian words *)

Lemma byte_to_of_Z (v : Z) : byte_to_Z (byte_of_Z v) = Z.land v (Z.ones 8).
Proof.
  unfold byte_to_Z, byte_of_Z. change 255 with (Z.ones 8).
  assert (Hr : 0 <= Z.land v (Z.ones 8) < 256).
  { rewrite Z.land_ones by lia. apply Z.mod_pos_bound. lia. }
  destruct (Byte.of_N (Z.to_N (Z.land v (Z.ones 8)))) as [b|] eqn:E.
  - apply Byte.to_of_N in E. rewrite E. apply Z2N.id. lia.
  - apply Byte.of_N_None_iff in E. lia.
Qed.

Lemma byte_to_Z_range (b : byte) : 0 <= byte_to_Z b < 256.
Proof.
  unfold byte_to_Z. pose proof (Byte.to_N_bounded b). lia.
Qed.

Lemma testbit_chunk (v k n : Z) :
  0 <= k -> 0 <= n ->
  Z.testbit (Z.shiftl (Z.land (Z.shiftr v k) (Z.ones 8)) k) n
  = Z.testbit v n && (k <=? n) && (n <? k + 8).
Proof.
  intros Hk Hn. rewrite Z.shiftl_spec by lia.
  destruct (Z.leb_spec k n) as [Hle|Hlt].
  - rewrite Z.land_spec, Z.shiftr_spec by lia.
    replace (n - k + k) with n by lia.
    destruct (Z.ltb_spec n (k + 8)).
    + rewrite Z.ones_spec_low by lia. now rewrite !andb_true_r.
    + rewrite Z.ones_spec_high by lia. now rewrite !andb_false_r.
  - rewrite Z.testbit_neg_r by lia. now rewrite andb_false_r.
Qed.

Lemma Uint64_PutUint64 (v : Z) :
  is_uint64 v -> Uint64 (PutUint64 v) = Ret v.
Proof.
  unfold is_uint64, uint64_max. intros Hv. cbn [PutUint64 Uint64]. f_equal.
  rewrite !byte_to_of_Z.
  rewrite <- (Z.shiftl_0_r (Z.land v (Z.ones 8))).
  rewrite <- (Z.shiftr_0_r v) at 1.
  apply Z.bits_inj'. intros n Hn.
  rewrite !Z.lor_spec, !testbit_chunk by lia.
  destruct (Z.ltb_spec n 64) as [Hlt|Hge].
  - destruct (Z.testbit v n); cbn [andb]; [|reflexivity].
    repeat match goal with
           | |- context [?a <=? ?b] => destruct (Z.leb_spec a b); try lia
           | |- context [?a <? ?b] => destruct (Z.ltb_spec a b); try lia
           end; reflexivity.
  - assert (Hb : Z.testbit v n = false).
    { destruct (Z.eq_dec v 0) as [->|Hnz]; [apply Z.bits_0|].
      apply Z.bits_above_log2; [lia|].
      assert (Z.log2 v < 64) by (apply Z.log2_lt_pow2; lia). lia. }
    rewrite Hb. reflexivity.
Qed.

Lemma length_PutUint64 (v : Z) : length (PutUint64 v) = 8%nat.
Proof. reflexivity. Qed.


Lemma Uint64_total (w : list byte) :
  (8 <= length w)%nat -> exists v, Uint64 w = Ret v /\ is_uint64 v.
Proof.
  destruct w as [|b0 [|b1 [|b2 [|b3 [|b4 [|b5 [|b6 [|b7 w]]]]]]]];
    cbn [length]; try lia.
  intros _. eexists. split; [reflexivity|].
  unfold is_uint64, uint64_max.
  pose proof (byte_to_Z_range b0). pose proof (byte_to_Z_range b1).
  pose proof (byte_to_Z_range b2). pose proof (byte_to_Z_range b3).
  pose proof (byte_to_Z_range b4). pose proof (byte_to_Z_range b5).
  pose proof (byte_to_Z_range b6). pose proof (byte_to_Z_range b7).
  assert (Hlt : forall a k, 0 <= k -> 0 <= a < 256 -> k + 8 <= 64 ->
            0 <= Z.shiftl a k /\ Z.log2 (Z.shiftl a k) < 64).
  { intros a k Hk Ha Hk8. split; [apply Z.shiftl_nonneg; lia|].
    destruct (Z.eq_dec a 0) as [->|Hnz].
    - rewrite Z.shiftl_0_l. cbn. lia.
    - rewrite Z.log2_shiftl by lia.
      assert (Z.log2 a < 8) by (apply Z.log2_lt_pow2; lia). lia. }
  assert (Hlor : forall a b, 0 <= a -> Z.log2 a < 64 -> 0 <= b -> Z.log2 b < 64 ->
            0 <= Z.lor a b /\ Z.log2 (Z.lor a b) < 64).
  { intros a b Ha Hla Hb Hlb. split; [apply Z.lor_nonneg; lia|].
    rewrite Z.log2_lor by lia. lia. }
  assert (Hb0 : 0 <= byte_to_Z b0 /\ Z.log2 (byte_to_Z b0) < 64).
  { split; [lia|]. destruct (Z.eq_dec (byte_to_Z b0) 0) as [->|Hnz]; [cbn; lia|].
    assert (Z.log2 (byte_to_Z b0) < 8) by (apply Z.log2_lt_pow2; lia). lia. }
  match goal with
  | |- 0 <= ?x <= _ =>
      assert (Hx : 0 <= x /\ Z.log2 x < 64)
  end.
  { repeat (apply Hlor; try apply Hlt; try apply Hb0; try lia). }
  destruct Hx as [Hx0 Hx1]. split; [lia|].
  match goal with
  | |- ?x <= _ => destruct (Z.eq_dec x 0) as [->|Hnz]; [lia|]
  end.
  apply Z.log2_lt_pow2 in Hx1; lia.
Qed.

(** ** Arrays, slices and strings *)

Lemma copy_full {n : nat} (dst : vec byte n) (src : list byte) :
  length src = n -> vec_to_list (copy dst src) = src.
Proof.
  intros Hlen. apply list_eq. intros i.
  destruct (src !! i) as [b|] eqn:E.
  - assert (Hi : (i < n)%nat) by (apply lookup_lt_Some in E; lia).
    apply vlookup_lookup'. exists Hi.
    unfold copy. rewrite lookup_fun_to_vec, fin_to_nat_to_fin, E. reflexivity.
  - apply lookup_ge_None_2. rewrite length_vec_to_list.
    apply lookup_ge_None_1 in E. lia.
Qed.

Lemma copy_vec {n : nat} (dst v : vec byte n) : copy dst (vec_to_list v) = v.
Proof.
  apply vec_to_list_inj2, copy_full, length_vec_to_list.
Qed.

Lemma slice_to_app (x rest sp : list byte) (n : Z) :
  n = Z.of_nat (length x) ->
  slice_to (mkSlice (x ++ rest) sp) n = Ret (mkSlice x (rest ++ sp)).
Proof.
  intros ->. unfold slice_to, cap. cbn [elems spare].
  rewrite length_app.
  replace (_ && _) with true
    by (symmetry; apply andb_true_intro; split; apply Z.leb_le; lia).
  rewrite Nat2Z.id, <- app_assoc.
  now rewrite take_app_length, drop_app_length.
Qed.

Lemma slice_from_app (x rest sp : list byte) (n : Z) :
  n = Z.of_nat (length x) ->
  slice_from (mkSlice (x ++ rest) sp) n = Ret (mkSlice rest sp).
Proof.
  intros ->. unfold slice_from, len. cbn [elems spare].
  rewrite length_app.
  replace (_ && _) with true
    by (symmetry; apply andb_true_intro; split; apply Z.leb_le; lia).
  now rewrite Nat2Z.id, drop_app_length.
Qed.

Lemma slice_to_Ret (s s' : Slice) (n : Z) :
  slice_to s n = Ret s' ->
  0 <= n <= cap s /\ len s' = n /\ elems s' ++ spare s' = elems s ++ spare s.
Proof.
  unfold slice_to. destruct (_ && _) eqn:E; [|discriminate].
  intros [= <-]. apply andb_true_iff in E as [E1%Z.leb_le E2%Z.leb_le].
  unfold len, cap in *. cbn [elems spare].
  rewrite take_drop, length_take, length_app. repeat split; lia.
Qed.

Lemma slice_from_Ret (s s' : Slice) (n : Z) :
  slice_from s n = Ret s' ->
  0 <= n <= len s /\ len s' = len s - n /\ spare s' = spare s.
Proof.
  unfold slice_from. destruct (_ && _) eqn:E; [|discriminate].
  intros [= <-]. apply andb_true_iff in E as [E1%Z.leb_le E2%Z.leb_le].
  unfold len in *. cbn [elems spare]. rewrite length_drop.
  repeat split; lia.
Qed.

Lemma length_list_byte_of_string (s : string) :
  length (String.list_byte_of_string s) = String.length s.
Proof.
  unfold String.list_byte_of_string. rewrite length_map.
  induction s as [|c s IH]; cbn; [reflexivity|now rewrite IH].
Qed.

Lemma uint64_of_len_small (n : nat) :
  Z.of_nat n <= int_max -> uint64_of_len n = Z.of_nat n /\ is_uint64 (Z.of_nat n).
Proof.
  unfold uint64_of_len, int_max, is_uint64, uint64_max. intros Hn.
  rewrite Z.mod_small by lia. lia.
Qed.

Lemma sell_is_not_buy (a : AuctionOrder) : IsSellSide a = true -> IsBuySide a = false.
Proof.
  unfold IsSellSide, IsBuySide. intros H.
  apply String.eqb_eq in H. rewrite H. reflexivity.
Qed.

(** ** The order codec *)

Lemma Serialize_layout (a : AuctionOrder) :
  Serialize a =
    vec_to_list (Pubkey a) ++ Pair_Serialize (TradingPair a) ++
    PutUint64 (AmountHave a) ++ PutUint64 (AmountWant a) ++
    PutUint64 (uint64_of_len (String.length (Side a))) ++
    String.list_byte_of_string (Side a) ++
    vec_to_list (AuctionID a) ++ vec_to_list (Nonce a) ++
    PutUint64 (uint64_of_len (length (Signature a))) ++ Signature a.
Proof.
  unfold Serialize. cbv zeta. rewrite app_nil_l, <- !app_assoc. reflexivity.
Qed.

Lemma length_Serialize (a : AuctionOrder) :
  Z.of_nat (length (Serialize a)) =
    101 + Z.of_nat (String.length (Side a)) + Z.of_nat (length (Signature a)).
Proof.
  rewrite Serialize_layout. unfold Pair_Serialize.
  rewrite !length_app, !length_vec_to_list, !length_PutUint64,
    length_list_byte_of_string.
  cbn [length]. lia.
Qed.

Lemma minimumDataLength_93 (a : AuctionOrder) : minimumDataLength a = 93.
Proof.
  unfold minimumDataLength. rewrite !length_vec_to_list. reflexivity.
Qed.

(** Decoding an encoded order followed by any bytes [t], in a slice of
    any capacity, into any receiver [r]. *)
Lemma Deserialize_Serialize_app (a r : AuctionOrder) (t sp : list byte) :
  wf_AuctionOrder a ->
  Deserialize r (mkSlice (Serialize a ++ t) sp)
  = Ret (set_OrderbookPrice (OrderbookPrice r) a, None).
Proof.
  intros (Hh & Hw & Hside & Hsig).
  destruct (uint64_of_len_small _ Hside) as [Es Us].
  destruct (uint64_of_len_small _ Hsig) as [Eg Ug].
  unfold Deserialize. rewrite minimumDataLength_93.
  assert (Hlen : (len (mkSlice (Serialize a ++ t) sp) <? 93) = false).
  { apply Z.ltb_ge. unfold len. cbn [elems]. rewrite length_app.
    pose proof (length_Serialize a). lia. }
  rewrite Hlen. rewrite Serialize_layout, <- !app_assoc.
  rewrite slice_to_app by (rewrite length_vec_to_list; reflexivity).
  cbn [mbind result_bind elems].
  rewrite slice_from_app by (rewrite length_vec_to_list; reflexivity).
  cbn [mbind result_bind elems].
  rewrite slice_to_app by reflexivity.
  cbn [mbind result_bind elems].
  rewrite copy_full by reflexivity.
  cbn [Pair_Deserialize Pair_Serialize].
  rewrite slice_from_app by reflexivity.
  cbn [mbind result_bind elems].
  rewrite slice_to_app by reflexivity.
  cbn [mbind result_bind elems]. rewrite Uint64_PutUint64 by assumption.
  cbn [mbind result_bind elems].
  rewrite slice_from_app by reflexivity.
  cbn [mbind result_bind elems].
  rewrite slice_to_app by reflexivity.
  cbn [mbind result_bind elems]. rewrite Uint64_PutUint64 by assumption.
  cbn [mbind result_bind elems].
  rewrite slice_from_app by reflexivity.
  cbn [mbind result_bind elems].
  rewrite slice_to_app by reflexivity.
  cbn [mbind result_bind elems]. rewrite Es, Uint64_PutUint64 by assumption.
  cbn [mbind result_bind elems].
  rewrite slice_from_app by reflexivity.
  cbn [mbind result_bind elems].
  rewrite slice_to_app by (now rewrite length_list_byte_of_string).
  cbn [mbind result_bind elems].
  rewrite slice_from_app by (now rewrite length_list_byte_of_string).
  cbn [mbind result_bind elems].
  rewrite slice_to_app by (rewrite length_vec_to_list; reflexivity).
  cbn [mbind result_bind elems].
  rewrite slice_from_app by (rewrite length_vec_to_list; reflexivity).
  cbn [mbind result_bind elems].
  rewrite slice_to_app by (rewrite length_vec_to_list; reflexivity).
  cbn [mbind result_bind elems].
  rewrite slice_from_app by (rewrite length_vec_to_list; reflexivity).
  cbn [mbind result_bind elems].
  rewrite slice_to_app by reflexivity.
  cbn [mbind result_bind elems]. rewrite Eg, Uint64_PutUint64 by assumption.
  cbn [mbind result_bind elems].
  rewrite slice_from_app by reflexivity.
  cbn [mbind result_bind elems].
  rewrite slice_to_app by reflexivity.
  cbn [mbind result_bind elems].
  rewrite <- (app_nil_l t) at 1. rewrite app_assoc, app_nil_r.
  rewrite slice_from_app by reflexivity.
  cbn [mbind result_bind].
  rewrite String.string_of_list_byte_of_string, !copy_vec.
  destruct a as [pk sd [pw ph] h w obp aid nc sg]. reflexivity.
Qed.

Lemma valid_sample_order (side : string) (have want : Z) :
  is_uint64 have -> is_uint64 want ->
  side = "buy" \/ side = "sell" ->
  valid_AuctionOrder (sample_order side have want).
Proof.
  intros Hh Hw Hs. split.
  - repeat split; try apply Hh; try apply Hw;
      destruct Hs as [-> | ->]; cbn; unfold int_max; lia.
  - destruct Hs as [-> | ->]; [left | right]; reflexivity.
Defined.

(** C1. Decoding the encoding of a valid order succeeds and gives back
    every field of the order but [OrderbookPrice], which the codec does
    not carry: the receiver keeps the one it had. This holds for any
    receiver and any capacity of the input slice. *)
Theorem Deserialize_Serialize_roundtrip (a r : AuctionOrder) (sp : list byte) :
  valid_AuctionOrder a ->
  exists a',
    Deserialize r (mkSlice (Serialize a) sp) = Ret (a', None) /\
    Pubkey a' = Pubkey a /\
    Side a' = Side a /\
    TradingPair a' = TradingPair a /\
    AmountHave a' = AmountHave a /\
    AmountWant a' = AmountWant a /\
    AuctionID a' = AuctionID a /\
    Nonce a' = Nonce a /\
    Signature a' = Signature a /\
    OrderbookPrice a' = OrderbookPrice r.
Proof.
  intros [Hwf _]. exists (set_OrderbookPrice (OrderbookPrice r) a). split.
  - rewrite <- (app_nil_r (Serialize a)).
    now apply Deserialize_Serialize_app.
  - repeat split.
Qed.

Lemma Deserialize_Serialize_roundtrip_witness :
  valid_AuctionOrder sample_buy_order /\
  exists a',
    Deserialize zero_AuctionOrder (mkSlice (Serialize sample_buy_order) [])
      = Ret (a', None) /\
    Pubkey a' = Pubkey sample_buy_order /\
    Side a' = Side sample_buy_order /\
    TradingPair a' = TradingPair sample_buy_order /\
    AmountHave a' = AmountHave sample_buy_order /\
    AmountWant a' = AmountWant sample_buy_order /\
    AuctionID a' = AuctionID sample_buy_order /\
    Nonce a' = Nonce sample_buy_order /\
    Signature a' = Signature sample_buy_order /\
    OrderbookPrice a' = OrderbookPrice zero_AuctionOrder.
Proof.
  assert (Hv : valid_AuctionOrder sample_buy_order).
  { apply valid_sample_order; [unfold is_uint64, uint64_max; lia ..| now left]. }
  split; [exact Hv|].
  exact (Deserialize_Serialize_roundtrip sample_buy_order zero_AuctionOrder [] Hv).
Defined.

Lemma SerializeSignable_layout (a : AuctionOrder) :
  SerializeSignable a =
    vec_to_list (Pubkey a) ++ Pair_Serialize (TradingPair a) ++
    PutUint64 (AmountHave a) ++ PutUint64 (AmountWant a) ++
    PutUint64 (uint64_of_len (String.length (Side a))) ++
    String.list_byte_of_string (Side a) ++
    vec_to_list (AuctionID a) ++ vec_to_list (Nonce a).
Proof.
  unfold SerializeSignable. cbv zeta. rewrite app_nil_l, <- !app_assoc. reflexivity.
Qed.

(** C6. The signable encoding is a prefix of the full encoding, which
    continues with the length of the signature and the signature and
    nothing else; the signable encoding is the fields from [Pubkey] to
    [Nonce] in the order of the layout. *)
Theorem SerializeSignable_prefix_of_Serialize (a : AuctionOrder) :
  Serialize a =
    SerializeSignable a ++
    PutUint64 (uint64_of_len (length (Signature a))) ++ Signature a /\
  SerializeSignable a `prefix_of` Serialize a /\
  SerializeSignable a =
    vec_to_list (Pubkey a) ++ Pair_Serialize (TradingPair a) ++
    PutUint64 (AmountHave a) ++ PutUint64 (AmountWant a) ++
    PutUint64 (uint64_of_len (String.length (Side a))) ++
    String.list_byte_of_string (Side a) ++
    vec_to_list (AuctionID a) ++ vec_to_list (Nonce a).
Proof.
  assert (E : Serialize a = SerializeSignable a ++
    PutUint64 (uint64_of_len (length (Signature a))) ++ Signature a).
  { rewrite Serialize_layout, SerializeSignable_layout, <- !app_assoc. reflexivity. }
  split; [exact E|]. split; [|apply SerializeSignable_layout].
  rewrite E. apply prefix_app_r. reflexivity.
Qed.

(** C9. Bytes that follow an encoded order are ignored: decoding the
    encoding of a valid order with any bytes [t] appended succeeds, and
    returns what decoding the encoding alone returns. *)
Theorem Deserialize_ignores_trailing_bytes
    (a r : AuctionOrder) (t sp sp' : list byte) :
  valid_AuctionOrder a ->
  exists a',
    Deserialize r (mkSlice (Serialize a ++ t) sp) = Ret (a', None) /\
    Deserialize r (mkSlice (Serialize a) sp') = Ret (a', None).
Proof.
  intros [Hwf _]. exists (set_OrderbookPrice (OrderbookPrice r) a). split.
  - now apply Deserialize_Serialize_app.
  - rewrite <- (app_nil_r (Serialize a)). now apply Deserialize_Serialize_app.
Qed.

Lemma Deserialize_ignores_trailing_bytes_witness :
  valid_AuctionOrder sample_sell_order /\
  exists a',
    Deserialize zero_AuctionOrder
      (mkSlice (Serialize sample_sell_order ++ [xff; x00; xff]) []) = Ret (a', None) /\
    Deserialize zero_AuctionOrder (mkSlice (Serialize sample_sell_order) [])
      = Ret (a', None).
Proof.
  assert (Hv : valid_AuctionOrder sample_sell_order).
  { apply valid_sample_order; [unfold is_uint64, uint64_max; lia ..| now right]. }
  split; [exact Hv|].
  exact (Deserialize_ignores_trailing_bytes sample_sell_order zero_AuctionOrder
           [xff; x00; xff] [] [] Hv).
Defined.

(** An input shorter than [minimumDataLength] is refused before any
    field is read: the receiver is returned as it was. *)
Lemma Deserialize_too_short (r : AuctionOrder) (data : Slice) :
  len data < minimumDataLength r ->
  Deserialize r data = Ret (r, Some (ErrOrderTooShort (len data))).
Proof.
  intros Hlen. unfold Deserialize.
  replace (len data <? minimumDataLength r) with true
    by (symmetry; apply Z.ltb_lt; exact Hlen).
  reflexivity.
Qed.

(** ** Inputs the length check lets through *)

Ltac deserialize_step :=
  match goal with
  | |- context [slice_to ?s ?n] =>
      let E := fresh "E" in
      destruct (slice_to s n) as [?|] eqn:E;
      [apply slice_to_Ret in E as (? & ? & ?) | reflexivity]
  | |- context [slice_from ?s ?n] =>
      let E := fresh "E" in
      destruct (slice_from s n) as [?|] eqn:E;
      [apply slice_from_Ret in E as (? & ? & ?) | reflexivity]
  | |- context [Uint64 ?w] =>
      destruct (Uint64 w) as [?|]; [|reflexivity]
  end; cbn [mbind result_bind].

(** An input of 93 to 100 bytes passes the length check and then runs out
    of bytes before the signature length is read. *)
Lemma Deserialize_panics_below_101 (r : AuctionOrder) (data : Slice) :
  minimumDataLength r <= len data < 101 -> Deserialize r data = Panic.
Proof.
  rewrite minimumDataLength_93. intros Hlen.
  unfold Deserialize. rewrite minimumDataLength_93.
  replace (len data <? 93) with false by (symmetry; apply Z.ltb_ge; lia).
  do 3 deserialize_step.
  match goal with
  | |- context [copy (vreplicate 2 x00) ?l] =>
      generalize (copy (vreplicate 2 x00) l)
  end.
  intros v. inv_vec v. intros w h.
  cbn [vec_to_list Pair_Deserialize].
  repeat deserialize_step.
  exfalso. lia.
Qed.

(** C4. The length check compares against 93 bytes, but the fixed-width
    fields that [Deserialize] then reads take 101: an input of 93 to 100
    bytes is not rejected and the reads run past its end. *)
Theorem Deserialize_length_check_lets_panic_through
    (r : AuctionOrder) (data : Slice) :
  minimumDataLength r <= len data < 101 ->
  (len data <? minimumDataLength r) = false /\ Deserialize r data = Panic.
Proof.
  intros Hlen. split.
  - apply Z.ltb_ge. lia.
  - now apply Deserialize_panics_below_101.
Qed.

Lemma Deserialize_length_check_lets_panic_through_witness :
  minimumDataLength zero_AuctionOrder <= len (full short_order_bytes) < 101 /\
  (len (full short_order_bytes) <? minimumDataLength zero_AuctionOrder) = false /\
  Deserialize zero_AuctionOrder (full short_order_bytes) = Panic.
Proof.
  assert (H : minimumDataLength zero_AuctionOrder
              <= len (full short_order_bytes) < 101) by (vm_compute; intuition discriminate).
  split; [exact H|].
  exact (Deserialize_length_check_lets_panic_through
           zero_AuctionOrder (full short_order_bytes) H).
Defined.

(** The side length is read from the input and used as a slice bound
    unchecked: a declared length beyond the capacity panics whatever the
    length of the input. *)
Example Deserialize_panics_on_declared_side_length :
  Deserialize zero_AuctionOrder
    (full (replicate 51 x00 ++ replicate 8 xff ++ replicate 200 x00)) = Panic.
Proof. vm_compute. reflexivity. Qed.

(** ** Prices *)

Example f64_two_is_2 : float64_of_uint64 2 = f64_two.
Proof. vm_compute. reflexivity. Qed.

Example f64_three_quarters_is_3_over_4 :
  f64_div (float64_of_uint64 3) (float64_of_uint64 4) = f64_three_quarters.
Proof. vm_compute. reflexivity. Qed.

(** C3. A sell order whose [AmountWant] is not zero gets its price
    computed and, with it, the error of the invalid side: the sell branch
    does not return. *)
Theorem Price_sell_reports_invalid_side (a : AuctionOrder) :
  IsSellSide a = true -> AmountWant a <> 0 ->
  Price a =
    (f64_div (float64_of_uint64 (AmountHave a)) (float64_of_uint64 (AmountWant a)),
     Some ErrNotBuyOrSell).
Proof.
  intros Hsell Hwant. unfold Price.
  rewrite (proj2 (Z.eqb_neq _ _) Hwant), (sell_is_not_buy a Hsell), Hsell.
  reflexivity.
Qed.

Lemma Price_sell_reports_invalid_side_witness :
  IsSellSide sample_sell_order = true /\ AmountWant sample_sell_order <> 0 /\
  Price sample_sell_order = (f64_two, Some ErrNotBuyOrSell).
Proof.
  assert (H1 : IsSellSide sample_sell_order = true) by reflexivity.
  assert (H2 : AmountWant sample_sell_order <> 0) by (cbn; lia).
  split; [exact H1|]. split; [exact H2|].
  exact (Price_sell_reports_invalid_side sample_sell_order H1 H2).
Defined.

(** What [Price] does on the other paths. *)
Lemma Price_buy (a : AuctionOrder) :
  IsBuySide a = true -> AmountWant a <> 0 ->
  Price a =
    (f64_div (float64_of_uint64 (AmountWant a)) (float64_of_uint64 (AmountHave a)),
     None).
Proof.
  intros Hbuy Hwant. unfold Price.
  rewrite (proj2 (Z.eqb_neq _ _) Hwant), Hbuy. reflexivity.
Qed.

Lemma Price_zero_want (a : AuctionOrder) :
  AmountWant a = 0 -> Price a = (f64_zero, Some ErrZeroAmountWant).
Proof.
  intros Hwant. unfold Price. rewrite Hwant. reflexivity.
Qed.

Lemma Price_other_side (a : AuctionOrder) :
  IsBuySide a = false -> IsSellSide a = false -> AmountWant a <> 0 ->
  Price a = (f64_zero, Some ErrNotBuyOrSell).
Proof.
  intros Hbuy Hsell Hwant. unfold Price.
  rewrite (proj2 (Z.eqb_neq _ _) Hwant), Hbuy, Hsell. reflexivity.
Qed.

(** *** [float64] of a positive [uint64] is a positive finite number *)

Lemma digits2_pos_bounds (p : positive) :
  2 ^ (Z.pos (digits2_pos p) - 1) <= Z.pos p < 2 ^ Z.pos (digits2_pos p).
Proof.
  induction p as [p IH|p IH|]; cbn [digits2_pos].
  - rewrite Pos2Z.inj_succ.
    replace (Z.succ (Z.pos (digits2_pos p)) - 1) with (Z.succ (Z.pos (digits2_pos p) - 1)) by lia.
    rewrite !Z.pow_succ_r by lia. lia.
  - rewrite Pos2Z.inj_succ.
    replace (Z.succ (Z.pos (digits2_pos p)) - 1) with (Z.succ (Z.pos (digits2_pos p) - 1)) by lia.
    rewrite !Z.pow_succ_r by lia. lia.
  - cbn. lia.
Qed.

Lemma digits2_pos_unique (p : positive) (k : Z) :
  2 ^ (k - 1) <= Z.pos p < 2 ^ k -> Z.pos (digits2_pos p) = k.
Proof.
  intros [Hlo Hhi]. pose proof (digits2_pos_bounds p) as [Blo Bhi].
  assert (Hk : 0 < k).
  { destruct (Z.ltb_spec 0 k); [assumption|].
    assert (2 ^ k <= 1).
    { destruct (Z.eq_dec k 0) as [->|]; [cbn; lia|].
      rewrite Z.pow_neg_r by lia. lia. }
    lia. }
  destruct (Z.lt_trichotomy (Z.pos (digits2_pos p)) k) as [H|[H|H]]; [|assumption|].
  - assert (2 ^ Z.pos (digits2_pos p) <= 2 ^ (k - 1)) by (apply Z.pow_le_mono_r; lia).
    lia.
  - assert (2 ^ k <= 2 ^ (Z.pos (digits2_pos p) - 1)) by (apply Z.pow_le_mono_r; lia).
    lia.
Qed.

Lemma shr_m_shr_1 (r : shr_record) :
  0 <= shr_m r -> shr_m (shr_1 r) = shr_m r / 2.
Proof.
  destruct r as [m b s]. cbn [shr_m]. intros Hm.
  destruct m as [|[q|q|]|q]; cbn [shr_1 shr_m]; try reflexivity.
  - rewrite Pos2Z.inj_xI. apply Z.div_unique with 1; lia.
  - rewrite Pos2Z.inj_xO. apply Z.div_unique with 0; lia.
  - lia.
Qed.

Lemma shr_m_iter_pos (n : positive) (r : shr_record) :
  0 <= shr_m r -> shr_m (SpecFloat.iter_pos shr_1 n r) = shr_m r / 2 ^ Z.pos n.
Proof.
  revert r. induction n as [n IH|n IH|]; intros r Hr; cbn [SpecFloat.iter_pos].
  - assert (H1 : 0 <= shr_m (shr_1 r)) by (rewrite shr_m_shr_1 by lia; apply Z.div_pos; lia).
    assert (H2 : 0 <= shr_m (SpecFloat.iter_pos shr_1 n (shr_1 r))).
    { rewrite IH by lia. apply Z.div_pos; [lia|]. apply Z.pow_pos_nonneg; lia. }
    rewrite IH, IH, shr_m_shr_1 by lia.
    rewrite !Z.div_div by (try apply Z.pow_pos_nonneg; lia).
    f_equal. replace (Z.pos n~1) with (1 + Z.pos n + Z.pos n) by lia.
    rewrite !Z.pow_add_r by lia. lia.
  - assert (H2 : 0 <= shr_m (SpecFloat.iter_pos shr_1 n r)).
    { rewrite IH by lia. apply Z.div_pos; [lia|]. apply Z.pow_pos_nonneg; lia. }
    rewrite IH, IH by lia.
    rewrite !Z.div_div by (try apply Z.pow_pos_nonneg; lia).
    f_equal. replace (Z.pos n~0) with (Z.pos n + Z.pos n) by lia.
    rewrite !Z.pow_add_r by lia. lia.
  - rewrite shr_m_shr_1 by lia. reflexivity.
Qed.

Lemma fexp_binary64 (x : Z) : -1021 <= x -> fexp 53 1024 x = x - 53.
Proof. intros Hx. unfold fexp, emin. lia. Qed.

Lemma binary_round_aux_finish (mx ex : Z) (lx : location) :
  binary_round_aux 53 1024 false mx ex lx =
    let '(mrs', e') := shr_fexp 53 1024 mx ex lx in
    let '(mrs'', e'') :=
      shr_fexp 53 1024 (round_nearest_even (shr_m mrs') (loc_of_shr_record mrs'))
        e' loc_Exact in
    finish_round mrs'' e''.
Proof. reflexivity. Qed.

Lemma second_stage (m2 e : Z) :
  2 ^ 52 <= m2 <= 2 ^ 53 -> -52 <= e <= 11 ->
  exists m e',
    (let '(mrs, e'') := shr_fexp 53 1024 m2 e loc_Exact in finish_round mrs e'')
    = S754_finite false m e'.
Proof.
  intros Hm He. destruct m2 as [|q|q]; try lia.
  unfold shr_fexp. cbn [Zdigits2 shr_record_of_loc].
  destruct (Z.eq_dec (Z.pos q) (2 ^ 53)) as [E|E].
  - assert (D : Z.pos (digits2_pos q) = 54) by (apply digits2_pos_unique; rewrite E; cbn; lia).
    rewrite D, fexp_binary64 by lia.
    replace (54 + e - 53 - e) with 1 by lia.
    cbn [shr SpecFloat.iter_pos]. unfold finish_round.
    rewrite shr_m_shr_1 by (cbn; lia). cbn [shr_m]. rewrite E.
    change (2 ^ 53 / 2) with (Z.pos (2 ^ 52)).
    replace (e + 1 <=? 1024 - 53) with true by (symmetry; apply Z.leb_le; lia).
    eauto.
  - assert (D : Z.pos (digits2_pos q) = 53) by (apply digits2_pos_unique; lia).
    rewrite D, fexp_binary64 by lia.
    replace (53 + e - 53 - e) with 0 by lia.
    cbn [shr]. unfold finish_round. cbn [shr_m].
    replace (e <=? 1024 - 53) with true by (symmetry; apply Z.leb_le; lia).
    eauto.
Qed.

Lemma round_nearest_even_bounds (m : Z) (l : location) :
  m <= round_nearest_even m l <= m + 1.
Proof.
  destruct l as [|[| |]]; cbn [round_nearest_even]; try lia.
  destruct (Z.even m); lia.
Qed.

Lemma binary_round_aux_finite (mx : positive) (ex : Z) :
  53 <= Z.pos (digits2_pos mx) <= 64 -> -52 <= ex <= 0 ->
  exists m e, binary_round_aux 53 1024 false (Z.pos mx) ex loc_Exact
              = S754_finite false m e.
Proof.
  intros Hd He. rewrite binary_round_aux_finish.
  pose proof (digits2_pos_bounds mx) as [Blo Bhi].
  unfold shr_fexp at 1. cbn [Zdigits2 shr_record_of_loc].
  rewrite fexp_binary64 by lia.
  remember (Z.pos (digits2_pos mx)) as d eqn:Ed.
  destruct (d + ex - 53 - ex) as [|n|n] eqn:En; try lia; cbn [shr].
  - assert (d = 53) by lia. subst d.
    apply second_stage; [|lia]. cbn [shr_m].
    pose proof (round_nearest_even_bounds (Z.pos mx) loc_Exact).
    cbn [loc_of_shr_record]. rewrite H in *. cbn in Bhi, Blo |- *. lia.
  - assert (Hn : Z.pos n = d - 53) by lia.
    assert (H1 : shr_m (SpecFloat.iter_pos shr_1 n
                          {| shr_m := Z.pos mx; shr_r := false; shr_s := false |})
                 = Z.pos mx / 2 ^ Z.pos n)
      by (apply shr_m_iter_pos; cbn; lia).
    assert (H2 : 2 ^ 52 <= Z.pos mx / 2 ^ Z.pos n < 2 ^ 53).
    { assert (HP : 0 < 2 ^ Z.pos n) by (apply Z.pow_pos_nonneg; lia).
      assert (E1 : 2 ^ (d - 1) = 2 ^ 52 * 2 ^ Z.pos n)
        by (rewrite <- Z.pow_add_r by lia; f_equal; lia).
      assert (E2 : 2 ^ d = 2 ^ 53 * 2 ^ Z.pos n)
        by (rewrite <- Z.pow_add_r by lia; f_equal; lia).
      split.
      - apply Z.div_le_lower_bound; lia.
      - apply Z.div_lt_upper_bound; lia. }
    apply second_stage; [|lia].
    pose proof (round_nearest_even_bounds
                  (shr_m (SpecFloat.iter_pos shr_1 n
                            {| shr_m := Z.pos mx; shr_r := false; shr_s := false |}))
                  (loc_of_shr_record (SpecFloat.iter_pos shr_1 n
                            {| shr_m := Z.pos mx; shr_r := false; shr_s := false |}))).
    rewrite H1 in *. lia.
Qed.

Lemma Zpos_iter_xO (p k : positive) :
  Z.pos (Pos.iter xO p k) = Z.pos p * 2 ^ Z.pos k.
Proof.
  induction k as [|k IH] using Pos.peano_ind.
  - cbn [Pos.iter]. rewrite Pos2Z.inj_xO. change (2 ^ 1) with 2. lia.
  - rewrite Pos.iter_succ, Pos2Z.inj_xO, IH, Pos2Z.inj_succ, Z.pow_succ_r by lia. lia.
Qed.

Lemma float64_of_uint64_finite (v : Z) :
  0 < v <= uint64_max ->
  exists m e, float64_of_uint64 v = S754_finite false m e.
Proof.
  unfold uint64_max. intros [Hpos Hmax]. destruct v as [|p|p]; try lia.
  unfold float64_of_uint64, binary_normalize, binary_round.
  pose proof (digits2_pos_bounds p) as [Blo Bhi].
  remember (Z.pos (digits2_pos p)) as d eqn:Ed.
  assert (Hd : 1 <= d <= 64).
  { split; [lia|]. destruct (Z.leb_spec d 64); [assumption|].
    assert (2 ^ 64 <= 2 ^ (d - 1)) by (apply Z.pow_le_mono_r; lia). lia. }
  rewrite fexp_binary64 by lia. unfold shl_align.
  destruct (d + 0 - 53 - 0) as [|n|n] eqn:En.
  - apply binary_round_aux_finite; lia.
  - apply binary_round_aux_finite; lia.
  - assert (Hn : Z.pos n = 53 - d) by lia.
    apply binary_round_aux_finite; [|lia].
    assert (D : Z.pos (digits2_pos (Pos.iter xO p n)) = 53); [|lia].
    apply digits2_pos_unique. rewrite Zpos_iter_xO.
    assert (HP : 0 < 2 ^ Z.pos n) by (apply Z.pow_pos_nonneg; lia).
    assert (E1 : 2 ^ (53 - 1) = 2 ^ (d - 1) * 2 ^ Z.pos n)
      by (rewrite <- Z.pow_add_r by lia; f_equal; lia).
    assert (E2 : 2 ^ 53 = 2 ^ d * 2 ^ Z.pos n)
      by (rewrite <- Z.pow_add_r by lia; f_equal; lia).
    rewrite E1, E2. split; nia.
Qed.

(** X9. [Price] returns without an error on buy orders with a non-zero
    [AmountWant], and on no other order. *)
Lemma Price_no_error_iff (a : AuctionOrder) :
  snd (Price a) = None <-> AmountWant a <> 0 /\ IsBuySide a = true.
Proof.
  unfold Price. destruct (Z.eqb_spec (AmountWant a) 0) as [E|E].
  - cbn. split; [discriminate|]. intros [H _]. contradiction.
  - destruct (IsBuySide a); cbn; split; auto; try discriminate.
    intros [_ H]. discriminate.
Qed.

(** C10. A buy order with [AmountHave = 0] and [AmountWant > 0] passes the
    guard, which looks at [AmountWant] only; the division by the zero
    [float64] is carried out and its result, positive infinity for an
    [AmountWant] that is a [uint64], is returned with no error. *)
Theorem Price_buy_zero_have (a : AuctionOrder) :
  IsBuySide a = true -> AmountHave a = 0 -> 0 < AmountWant a ->
  Price a = (f64_div (float64_of_uint64 (AmountWant a)) f64_zero, None) /\
  (AmountWant a <= uint64_max -> Price a = (S754_infinity false, None)).
Proof.
  intros Hbuy Hhave Hwant. rewrite Price_buy by (assumption || lia).
  rewrite Hhave. split; [reflexivity|]. intros Hmax.
  destruct (float64_of_uint64_finite (AmountWant a)) as (m & e & ->); [lia|].
  reflexivity.
Qed.

Lemma Price_buy_zero_have_witness :
  IsBuySide (sample_order "buy" 0 5) = true /\
  AmountHave (sample_order "buy" 0 5) = 0 /\
  0 < AmountWant (sample_order "buy" 0 5) /\
  Price (sample_order "buy" 0 5) = (S754_infinity false, None) /\
  AmountWant (sample_order "buy" 0 5) <= uint64_max.
Proof.
  assert (H1 : IsBuySide (sample_order "buy" 0 5) = true) by reflexivity.
  assert (H2 : AmountHave (sample_order "buy" 0 5) = 0) by reflexivity.
  assert (H3 : 0 < AmountWant (sample_order "buy" 0 5)) by (cbn; lia).
  assert (H4 : AmountWant (sample_order "buy" 0 5) <= uint64_max)
    by (cbn; unfold uint64_max; lia).
  split; [exact H1|]. split; [exact H2|]. split; [exact H3|].
  split; [|exact H4].
  exact (proj2 (Price_buy_zero_have (sample_order "buy" 0 5) H1 H2 H3) H4).
Defined.

(** ** Setting the amount wanted from a price *)

(** In range, [uint64(f)] drops the fraction of [f]. *)
Lemma uint64_of_float64_truncates (oor : float64 -> Z) (f : float64) (q : Q) :
  float64_to_Q f = Some q ->
  (0 <= q)%Q -> (q < inject_Z (2 ^ 64))%Q ->
  is_truncation q (uint64_of_float64 oor f).
Proof.
  intros Hq H0 H64.
  destruct f as [s | s | | s m e]; cbn [float64_to_Q] in Hq; try discriminate.
  - injection Hq as <-. cbn [uint64_of_float64].
    split; [unfold Qle | unfold Qlt]; cbn; lia.
  - injection Hq as <-.
    destruct s.
    { exfalso. destruct e; unfold Qle in H0; cbn in H0; lia. }
    assert (Ht : is_truncation
                   match e with
                   | 0 => (Z.pos m # 1)%Q
                   | Z.pos k => (Z.pos m * Z.pos (2 ^ k) # 1)%Q
                   | Z.neg k => (Z.pos m # 2 ^ k)%Q
                   end (magnitude_trunc m e)).
    { unfold is_truncation, magnitude_trunc, Qle, Qlt.
      destruct e as [|k|k]; cbn [Qnum Qden inject_Z].
      - rewrite Z.shiftl_0_r. lia.
      - rewrite Z.shiftl_mul_pow2, Pos2Z.inj_pow by lia. lia.
      - change (Z.shiftl (Z.pos m) (Z.neg k)) with (Z.shiftr (Z.pos m) (Z.pos k)).
        rewrite Z.shiftr_div_pow2, Pos2Z.inj_pow by lia.
        assert (HD : 0 < 2 ^ Z.pos k) by (apply Z.pow_pos_nonneg; lia).
        pose proof (Z.mul_div_le (Z.pos m) _ HD).
        pose proof (Z.mul_succ_div_gt (Z.pos m) _ HD).
        lia. }
    cbn [uint64_of_float64].
    replace (magnitude_trunc m e <=? uint64_max) with true; [exact Ht|].
    symmetry. apply Z.leb_le.
    destruct Ht as [Hle _].
    pose proof (Qle_lt_trans _ _ _ Hle H64) as Hlt.
    unfold Qlt in Hlt. cbn [Qnum Qden inject_Z] in Hlt.
    unfold uint64_max. lia.
Qed.

(** C5 as stated fails at a buy order with [AmountHave = 5] and the price
    0.75: the product is 3.75, the code stores 3, and 3 is not the nearest
    integer. *)
Lemma SetAmountWant_does_not_round :
  let a := sample_order "buy" 5 0 in
  f64_leb f64_three_quarters f64_zero = false /\
  IsBuySide a = true /\
  exists q,
    float64_to_Q (f64_mul (float64_of_uint64 (AmountHave a)) f64_three_quarters)
      = Some q /\
    (q == 15 # 4)%Q /\
    (forall oor, SetAmountWant oor a f64_three_quarters
                 = (set_AmountWant 3 a, None)) /\
    ~ is_rounding q 3.
Proof.
  cbv zeta. split; [reflexivity|]. split; [reflexivity|].
  eexists. split; [vm_compute; reflexivity|].
  split; [reflexivity|]. split; [intros oor; vm_compute; reflexivity|].
  unfold is_rounding. vm_compute. intros H. apply H. reflexivity.
Qed.

(** C5, amended. [SetAmountWant] fails on a price that is not above zero
    and on a side that is neither buy nor sell, and leaves the order as
    it was; otherwise it stores [AmountHave * price] (buy) or
    [AmountHave / price] (sell), computed in [float64], with the fraction
    dropped, as long as that fits a [uint64]. On a buy order with
    [AmountHave = 100] and the price 2 it stores 200, and [Price] gives 2
    again. *)
Theorem SetAmountWant_truncates
    (oor : float64 -> Z) (a : AuctionOrder) (price : float64) :
  (f64_leb price f64_zero = true ->
     SetAmountWant oor a price = (a, Some ErrPriceNotPositive)) /\
  (f64_leb price f64_zero = false -> IsBuySide a = false -> IsSellSide a = false ->
     SetAmountWant oor a price = (a, Some ErrInvalidSide)) /\
  (f64_leb price f64_zero = false -> IsBuySide a = true ->
     forall q,
       float64_to_Q (f64_mul (float64_of_uint64 (AmountHave a)) price) = Some q ->
       (0 <= q)%Q -> (q < inject_Z (2 ^ 64))%Q ->
       exists w, SetAmountWant oor a price = (set_AmountWant w a, None) /\
                 is_truncation q w) /\
  (f64_leb price f64_zero = false -> IsBuySide a = false -> IsSellSide a = true ->
     forall q,
       float64_to_Q (f64_div (float64_of_uint64 (AmountHave a)) price) = Some q ->
       (0 <= q)%Q -> (q < inject_Z (2 ^ 64))%Q ->
       exists w, SetAmountWant oor a price = (set_AmountWant w a, None) /\
                 is_truncation q w) /\
  (price = f64_two -> IsBuySide a = true -> AmountHave a = 100 ->
     SetAmountWant oor a price = (set_AmountWant 200 a, None) /\
     Price (set_AmountWant 200 a) = (f64_two, None)).
Proof.
  unfold SetAmountWant. split; [|split; [|split; [|split]]].
  - intros ->. reflexivity.
  - intros -> -> ->. reflexivity.
  - intros -> -> q Hq H0 H64. eexists. split; [reflexivity|].
    now apply uint64_of_float64_truncates.
  - intros -> -> -> q Hq H0 H64. eexists. split; [reflexivity|].
    now apply uint64_of_float64_truncates.
  - intros -> Hbuy Hhave. split.
    + rewrite Hbuy, Hhave. reflexivity.
    + rewrite Price_buy by (cbn; (assumption || lia)).
      cbn [AmountWant AmountHave set_AmountWant]. rewrite Hhave. reflexivity.
Qed.

(** ** Wrapping an order and solving its puzzle *)

Section EnvelopeFacts.

Context {PuzzleRSW HashTimelock Rand : Type}.
Variable Create :
  Rand -> Z -> list byte -> list byte * Puzzle PuzzleRSW HashTimelock * option error.
Variable Solve : list byte -> Puzzle PuzzleRSW HashTimelock -> Slice * option error.

(** What one call sends, by the outcome of the solver and of the
    decoder. *)
Lemma SolveRC5AuctionOrderAsync_cases
    (h : heap) (e : loc) (enc : EncryptedAuctionOrder PuzzleRSW HashTimelock)
    (ch : list OrderPuzzleResult) :
  h !! e = Some enc ->
  SolveRC5AuctionOrderAsync Solve h e ch =
    match Solve (OrderCiphertext enc) (OrderPuzzle enc) with
    | (_, Some cause) =>
        Ret (ch ++ [mkOrderPuzzleResult (Some e) None
                      (Some (ErrSolvingPuzzle cause))])
    | (orderBytes, None) =>
        match Deserialize zero_AuctionOrder orderBytes with
        | Panic => Panic
        | Ret (a, Some cause) =>
            Ret (ch ++ [mkOrderPuzzleResult (Some e) (Some a)
                          (Some (ErrDeserializingSolved cause))])
        | Ret (a, None) =>
            Ret (ch ++ [mkOrderPuzzleResult (Some e) (Some a) None])
        end
    end.
Proof.
  intros Hh. unfold SolveRC5AuctionOrderAsync. rewrite Hh.
  destruct (Solve _ _) as [orderBytes [cause|]]; [reflexivity|].
  destruct (Deserialize _ _) as [[a [cause|]]|]; reflexivity.
Qed.

(** C2. When the solved bytes are 93 to 100 bytes long, the decoder
    panics and the call sends nothing: no result reaches the channel. *)
Theorem SolveRC5AuctionOrderAsync_sends_nothing_on_short_plaintext
    (h : heap) (e : loc) (enc : EncryptedAuctionOrder PuzzleRSW HashTimelock)
    (ch : list OrderPuzzleResult) (orderBytes : Slice) :
  h !! e = Some enc ->
  Solve (OrderCiphertext enc) (OrderPuzzle enc) = (orderBytes, None) ->
  93 <= len orderBytes < 101 ->
  SolveRC5AuctionOrderAsync Solve h e ch = Panic.
Proof.
  intros Hh Hs Hlen. rewrite (SolveRC5AuctionOrderAsync_cases h e enc ch Hh), Hs.
  rewrite Deserialize_panics_below_101; [reflexivity|].
  rewrite minimumDataLength_93. exact Hlen.
Qed.

(** C7. A successful [TurnIntoEncryptedOrder] returns the ciphertext and
    the puzzle that the puzzle algebra made of [t] and the encoded
    order, bound to the auction of the order. *)
Theorem TurnIntoEncryptedOrder_binds_auction
    (rnd : Rand) (a : AuctionOrder) (t : Z)
    (encrypted : EncryptedAuctionOrder PuzzleRSW HashTimelock) :
  TurnIntoEncryptedOrder Create rnd a t = (encrypted, None) ->
  IntendedAuction encrypted = AuctionID a /\
  Create rnd t (Serialize a)
    = (OrderCiphertext encrypted, OrderPuzzle encrypted, None).
Proof.
  unfold TurnIntoEncryptedOrder.
  destruct (Create rnd t (Serialize a)) as [[ct pz] [cause|]];
    intros [= <-]; split; reflexivity.
Qed.

(** A failing puzzle algebra is reported, and the auction is then left
    unset. *)
Lemma TurnIntoEncryptedOrder_error
    (rnd : Rand) (a : AuctionOrder) (t : Z) (ct : list byte)
    (pz : Puzzle PuzzleRSW HashTimelock) (cause : error) :
  Create rnd t (Serialize a) = (ct, pz, Some cause) ->
  TurnIntoEncryptedOrder Create rnd a t
    = (mkEncryptedAuctionOrder ct pz (vreplicate 32 x00),
       Some (ErrCreatingPuzzle cause)).
Proof.
  intros H. unfold TurnIntoEncryptedOrder. rewrite H. reflexivity.
Qed.

End EnvelopeFacts.

Lemma SolveRC5AuctionOrderAsync_sends_nothing_on_short_plaintext_witness :
  let enc := mkEncryptedAuctionOrder short_order_bytes (RSW true : Puzzle bool bool)
      (vreplicate 32 x00) in
  let h : heap := {[ 1%positive := enc ]} in
  h !! 1%positive = Some enc /\
  toy_solve (OrderCiphertext enc) (OrderPuzzle enc) = (full short_order_bytes, None) /\
  93 <= len (full short_order_bytes) < 101 /\
  SolveRC5AuctionOrderAsync toy_solve h 1%positive [] = Panic.
Proof.
  cbv zeta.
  assert (H1 : ({[ 1%positive :=
                   mkEncryptedAuctionOrder short_order_bytes
                     (RSW true : Puzzle bool bool) (vreplicate 32 x00) ]} : heap)
               !! 1%positive
               = Some (mkEncryptedAuctionOrder short_order_bytes
                         (RSW true : Puzzle bool bool) (vreplicate 32 x00)))
    by reflexivity.
  assert (H3 : 93 <= len (full short_order_bytes) < 101)
    by (vm_compute; intuition discriminate).
  split; [exact H1|]. split; [reflexivity|]. split; [exact H3|].
  exact (SolveRC5AuctionOrderAsync_sends_nothing_on_short_plaintext
           toy_solve _ 1%positive _ [] (full short_order_bytes) H1 eq_refl H3).
Defined.

Lemma TurnIntoEncryptedOrder_binds_auction_witness :
  let encrypted :=
    mkEncryptedAuctionOrder (Serialize sample_buy_order) (RSW true : Puzzle bool bool)
      (AuctionID sample_buy_order) in
  TurnIntoEncryptedOrder toy_create tt sample_buy_order 1000 = (encrypted, None) /\
  IntendedAuction encrypted = AuctionID sample_buy_order /\
  toy_create tt 1000 (Serialize sample_buy_order)
    = (OrderCiphertext encrypted, OrderPuzzle encrypted, None).
Proof.
  cbv zeta. split; [reflexivity|].
  exact (TurnIntoEncryptedOrder_binds_auction toy_create tt sample_buy_order 1000
           _ eq_refl).
Defined.

(** ** The gob envelope *)

(** A registration that returns has bound the name to the type and the
    type to the name, and has kept every earlier binding. *)
Lemma RegisterName_Ret (name : string) (ty : gobType) (r r' : Registry) :
  RegisterName name ty r = Ret r' ->
  nameToConcreteType r' !! name = Some ty /\
  concreteTypeToName r' !! ty = Some name /\
  (forall n t, nameToConcreteType r !! n = Some t ->
               nameToConcreteType r' !! n = Some t) /\
  (forall t n, concreteTypeToName r !! t = Some n ->
               concreteTypeToName r' !! t = Some n) /\
  (forall n, n <> name -> nameToConcreteType r' !! n = nameToConcreteType r !! n).
Proof.
  unfold RegisterName. destruct (String.eqb name "") eqn:En; [discriminate|].
  intros H.
  destruct (nameToConcreteType r !! name) as [t0|] eqn:E1;
    cbn [mbind result_bind nameToConcreteType concreteTypeToName] in H.
  - destruct (String.eqb_spec t0 ty) as [->|]; [|discriminate].
    cbn [mbind result_bind] in H.
    destruct (concreteTypeToName r !! ty) as [n0|] eqn:E2.
    + destruct (String.eqb_spec n0 name) as [->|]; [|discriminate].
      injection H as <-. auto.
    + injection H as <-. cbn [nameToConcreteType concreteTypeToName].
      split; [exact E1|]. split; [apply lookup_insert_eq|].
      split; [auto|]. split; [|auto].
      intros t n Ht. rewrite lookup_insert_ne; [exact Ht|].
      intros ->. congruence.
  - destruct (concreteTypeToName r !! ty) as [n0|] eqn:E2.
    + destruct (String.eqb_spec n0 name) as [->|]; [|discriminate].
      injection H as <-. cbn [nameToConcreteType concreteTypeToName].
      split; [apply lookup_insert_eq|]. split; [exact E2|].
      split; [|split; [auto|]].
      * intros n t Hn. rewrite lookup_insert_ne; [exact Hn|].
        intros ->. congruence.
      * intros n Hn. apply lookup_insert_ne. congruence.
    + injection H as <-. cbn [nameToConcreteType concreteTypeToName].
      split; [apply lookup_insert_eq|]. split; [apply lookup_insert_eq|].
      split; [|split].
      * intros n t Hn. rewrite lookup_insert_ne; [exact Hn|].
        intros ->. congruence.
      * intros t n Ht. rewrite lookup_insert_ne; [exact Ht|].
        intros ->. congruence.
      * intros n Hn. apply lookup_insert_ne. congruence.
Qed.


(** Registering again what is registered changes nothing: every call of
    [Serialize] and [Deserialize] after the first finds its names. *)
Lemma RegisterName_again (name : string) (ty : gobType) (r : Registry) :
  name <> "" ->
  nameToConcreteType r !! name = Some ty ->
  concreteTypeToName r !! ty = Some name ->
  RegisterName name ty r = Ret r.
Proof.
  intros Hn H1 H2. unfold RegisterName.
  apply String.eqb_neq in Hn. rewrite Hn, H1, String.eqb_refl.
  cbn [mbind result_bind]. rewrite H2, String.eqb_refl. reflexivity.
Qed.

Lemma register_all_again (r r' : Registry) :
  register_all r = Ret r' -> register_all r' = Ret r'.
Proof.
  unfold register_all at 1.
  destruct (RegisterName name_PuzzleRSW type_PuzzleRSW r) as [r1|] eqn:E1;
    [|discriminate]; cbn [mbind result_bind].
  destruct (RegisterName name_HashTimelock type_HashTimelock r1) as [r2|] eqn:E2;
    [|discriminate]; cbn [mbind result_bind].
  destruct (RegisterName "puzzle" type_Puzzle r2) as [r3|] eqn:E3;
    [|discriminate]; cbn [mbind result_bind].
  intros E4.
  apply RegisterName_Ret in E1 as (A1 & B1 & _ & _ & _).
  apply RegisterName_Ret in E2 as (A2 & B2 & M2 & N2 & _).
  apply RegisterName_Ret in E3 as (A3 & B3 & M3 & N3 & _).
  apply RegisterName_Ret in E4 as (A4 & B4 & M4 & N4 & _).
  unfold register_all.
  rewrite (RegisterName_again name_PuzzleRSW type_PuzzleRSW r')
    by (discriminate || auto).
  cbn [mbind result_bind].
  rewrite (RegisterName_again name_HashTimelock type_HashTimelock r')
    by (discriminate || auto).
  cbn [mbind result_bind].
  rewrite (RegisterName_again "puzzle" type_Puzzle r') by (discriminate || auto).
  cbn [mbind result_bind].
  apply RegisterName_again; (discriminate || auto).
Qed.

Example register_all_fresh_process :
  exists r, register_all empty_Registry = Ret r.
Proof. eexists. vm_compute. reflexivity. Qed.


Section EnvelopeCodec.

Context {PuzzleRSW HashTimelock : Type}.
Context {codecRSW : GobCodec PuzzleRSW} {codecHTL : GobCodec HashTimelock}.

Abbreviation Envelope := (EncryptedAuctionOrder PuzzleRSW HashTimelock).
Abbreviation decodePuzzle :=
  (@gobDecodePuzzle PuzzleRSW HashTimelock codecRSW codecHTL).

Lemma Envelope_Serialize_registers (r : Registry) (e : Envelope) :
  Envelope_Serialize r e =
    match register_all r with
    | Panic => Panic
    | Ret r' =>
        match gobEncode r' e with
        | inr err => Ret (r', ([], Some (ErrEncodingEnvelope err)))
        | inl raw => Ret (r', (raw, None))
        end
    end.
Proof.
  unfold Envelope_Serialize, register_all.
  destruct (RegisterName name_PuzzleRSW type_PuzzleRSW r) as [r1|];
    [|reflexivity]; cbn [mbind result_bind].
  destruct (RegisterName name_HashTimelock type_HashTimelock r1) as [r2|];
    [|reflexivity]; cbn [mbind result_bind].
  destruct (RegisterName "puzzle" type_Puzzle r2) as [r3|];
    [|reflexivity]; cbn [mbind result_bind].
  destruct (RegisterName "order" type_EncryptedAuctionOrder r3) as [r4|];
    reflexivity.
Qed.

Lemma Envelope_Deserialize_registers (r : Registry) (e : Envelope) (raw : list byte) :
  Envelope_Deserialize r e raw =
    match register_all r with
    | Panic => Panic
    | Ret r' =>
        match gobDecode r' e raw with
        | (e', Some err) => Ret (r', (e', Some (ErrDecodingEnvelope err)))
        | (e', None) => Ret (r', (e', None))
        end
    end.
Proof.
  unfold Envelope_Deserialize, register_all.
  destruct (RegisterName name_PuzzleRSW type_PuzzleRSW r) as [r1|];
    [|reflexivity]; cbn [mbind result_bind].
  destruct (RegisterName name_HashTimelock type_HashTimelock r1) as [r2|];
    [|reflexivity]; cbn [mbind result_bind].
  destruct (RegisterName "puzzle" type_Puzzle r2) as [r3|];
    [|reflexivity]; cbn [mbind result_bind].
  destruct (RegisterName "order" type_EncryptedAuctionOrder r3) as [r4|];
    reflexivity.
Qed.














End EnvelopeCodec.



Lemma SetAmountWant_truncates_witness :
  let oor := fun _ : float64 => 0 in
  SetAmountWant oor sample_buy_order f64_zero
    = (sample_buy_order, Some ErrPriceNotPositive) /\
  SetAmountWant oor (sample_order "hold" 100 0) f64_two
    = (sample_order "hold" 100 0, Some ErrInvalidSide) /\
  (exists w,
     SetAmountWant oor (sample_order "buy" 5 0) f64_three_quarters
       = (set_AmountWant w (sample_order "buy" 5 0), None) /\
     is_truncation (8444249301319680 # 2251799813685248) w) /\
  (exists w,
     SetAmountWant oor (sample_order "sell" 5 0) f64_two
       = (set_AmountWant w (sample_order "sell" 5 0), None) /\
     is_truncation (5629499534213120 # 2251799813685248) w) /\
  SetAmountWant oor (sample_order "buy" 100 0) f64_two
    = (set_AmountWant 200 (sample_order "buy" 100 0), None) /\
  Price (set_AmountWant 200 (sample_order "buy" 100 0)) = (f64_two, None).
Proof.
  cbv zeta.
  pose (oor := fun _ : float64 => 0).
  split.
  { exact (proj1 (SetAmountWant_truncates oor sample_buy_order f64_zero) eq_refl). }
  split.
  { exact (proj1 (proj2 (SetAmountWant_truncates oor (sample_order "hold" 100 0)
                           f64_two)) eq_refl eq_refl eq_refl). }
  split.
  { apply (proj1 (proj2 (proj2 (SetAmountWant_truncates oor (sample_order "buy" 5 0)
                                  f64_three_quarters))) eq_refl eq_refl).
    - vm_compute. reflexivity.
    - vm_compute. discriminate.
    - vm_compute. reflexivity. }
  split.
  { apply (proj1 (proj2 (proj2 (proj2
             (SetAmountWant_truncates oor (sample_order "sell" 5 0) f64_two))))
             eq_refl eq_refl eq_refl).
    - vm_compute. reflexivity.
    - vm_compute. discriminate.
    - vm_compute. reflexivity. }
  exact (proj2 (proj2 (proj2 (proj2
           (SetAmountWant_truncates oor (sample_order "buy" 100 0) f64_two))))
           eq_refl eq_refl eq_refl).
Defined.

(** * Further properties *)

(** ** Little-endian words, read back *)

Lemma byte_of_to_Z (b : byte) : byte_of_Z (byte_to_Z b) = b.
Proof.
  unfold byte_of_Z, byte_to_Z. change 255 with (Z.ones 8).
  pose proof (Byte.to_N_bounded b) as Hb.
  rewrite Z.land_ones, Z.mod_small, N2Z.id, Byte.of_to_N by lia.
  reflexivity.
Qed.

Lemma byte_of_Z_eq (x : Z) (b : byte) :
  Z.land x (Z.ones 8) = byte_to_Z b -> byte_of_Z x = b.
Proof.
  intros H. rewrite <- (byte_of_to_Z b), <- H.
  unfold byte_of_Z. change 255 with (Z.ones 8).
  rewrite Z.land_ones, Z.land_ones, Z.mod_mod by lia. reflexivity.
Qed.

Lemma testbit_byte_out (b : byte) (m : Z) :
  m < 0 \/ 8 <= m -> Z.testbit (byte_to_Z b) m = false.
Proof.
  intros [Hm|Hm]; [apply Z.testbit_neg_r; lia|].
  pose proof (byte_to_Z_range b) as Hb.
  destruct (Z.eq_dec (byte_to_Z b) 0) as [->|Hnz]; [apply Z.bits_0|].
  apply Z.bits_above_log2; [lia|].
  assert (Z.log2 (byte_to_Z b) < 8) by (apply Z.log2_lt_pow2; lia). lia.
Qed.

Lemma PutUint64_Uint64 (w : list byte) (v : Z) :
  length w = 8%nat -> Uint64 w = Ret v -> PutUint64 v = w.
Proof.
  destruct w as [|b0 [|b1 [|b2 [|b3 [|b4 [|b5 [|b6 [|b7 [|b8 w]]]]]]]]];
    cbn [length]; try lia.
  intros _. cbn [Uint64]. intros [= <-]. unfold PutUint64.
  rewrite <- (Z.shiftl_0_r (byte_to_Z b0)).
  rewrite <- (Z.shiftr_0_r (Z.lor _ _)) at 1.
  repeat f_equal;
    (apply byte_of_Z_eq; apply Z.bits_inj'; intros n Hn;
     rewrite Z.land_spec, Z.shiftr_spec, !Z.lor_spec, !Z.shiftl_spec by lia;
     destruct (Z.ltb_spec n 8);
     [ rewrite Z.ones_spec_low by lia
     | rewrite Z.ones_spec_high, (testbit_byte_out _ n) by lia;
       now rewrite andb_false_r ];
     rewrite andb_true_r;
     repeat match goal with
            | |- context [Z.testbit (byte_to_Z ?b) ?m] =>
                rewrite (testbit_byte_out b m) by lia
            end;
     rewrite ?orb_false_r, ?orb_false_l; f_equal; lia).
Qed.

Lemma Uint64_Ret_range (w : list byte) (v : Z) :
  Uint64 w = Ret v -> is_uint64 v /\ (8 <= length w)%nat.
Proof.
  intros H.
  assert (Hl : (8 <= length w)%nat).
  { destruct w as [|b0 [|b1 [|b2 [|b3 [|b4 [|b5 [|b6 [|b7 w]]]]]]]];
      cbn in H; try discriminate. cbn [length]. lia. }
  destruct (Uint64_total w Hl) as (v' & E & Hv). split; [|exact Hl].
  rewrite E in H. injection H as <-. exact Hv.
Qed.

(** [s[:n]] followed by [s[n:]]: the input is what the first kept
    followed by what the second kept. *)
Lemma slice_split (data s d' : Slice) (n : Z) :
  slice_to data n = Ret s -> slice_from data n = Ret d' ->
  elems data = elems s ++ elems d' /\ Z.of_nat (length (elems s)) = n /\
  spare d' = spare data.
Proof.
  unfold slice_to, slice_from, len, cap. intros H1 H2.
  destruct (_ && _) eqn:E1 in H1; [|discriminate]. injection H1 as <-.
  destruct (_ && _) eqn:E2 in H2; [|discriminate]. injection H2 as <-.
  apply andb_true_iff in E2 as [H0%Z.leb_le Hn%Z.leb_le].
  cbn [elems spare].
  rewrite take_app_le by lia. rewrite take_drop, length_take. repeat split; lia.
Qed.

Lemma String_length_string_of_list_byte (l : list byte) :
  String.length (String.string_of_list_byte l) = length l.
Proof.
  rewrite <- length_list_byte_of_string.
  now rewrite String.list_byte_of_string_of_list_byte.
Qed.

Ltac inv_step H :=
  match type of H with
  | context [slice_to ?s ?n] =>
      let E := fresh "Et" in
      destruct (slice_to s n) as [?|] eqn:E; [|discriminate H]
  | context [slice_from ?s ?n] =>
      let E := fresh "Ef" in
      destruct (slice_from s n) as [?|] eqn:E; [|discriminate H]
  | context [Uint64 ?w] =>
      let E := fresh "Eu" in
      destruct (Uint64 w) as [?|] eqn:E; [|discriminate H]
  end; cbn [mbind result_bind] in H.

Lemma Deserialize_Ret_canonical (r a' : AuctionOrder) (data : Slice) :
  Deserialize r data = Ret (a', None) ->
  exists t,
    elems data = Serialize a' ++ t /\
    OrderbookPrice a' = OrderbookPrice r /\
    is_uint64 (AmountHave a') /\ is_uint64 (AmountWant a').
Proof.
  intros H. unfold Deserialize in H. rewrite minimumDataLength_93 in H.
  destruct (len data <? 93); [discriminate|].
  do 3 inv_step H.
  match goal with
  | E : slice_to _ 2 = Ret ?s |- _ =>
      pose proof (slice_to_Ret _ _ _ E) as (_ & Hl2 & _); unfold len in Hl2;
      rewrite (copy_full (vreplicate 2 x00) (elems s)) in H by lia;
      destruct (elems s) as [|pw [|ph [|? ?]]] eqn:Es1;
      cbn [length] in Hl2; try lia
  end.
  cbn [vec_to_list Pair_Deserialize] in H.
  repeat inv_step H.
  injection H as <-.
  repeat match goal with
         | Et : slice_to ?d ?n = Ret ?s, Ef : slice_from ?d ?n = Ret ?d' |- _ =>
             let A := fresh "A" in let L := fresh "L" in
             pose proof (slice_split _ _ _ _ Et Ef) as (A & L & _); clear Et Ef
         end.
  repeat match goal with
         | Eu : Uint64 ?w = Ret ?v |- _ =>
             let R := fresh "R" in let P := fresh "P" in
             pose proof (Uint64_Ret_range _ _ Eu) as [R _];
             pose proof (PutUint64_Uint64 w v ltac:(lia) Eu) as P; clear Eu
         end.
  eexists. split; [|split; [reflexivity|split; assumption]].
  rewrite Serialize_layout.
  cbn [Pubkey Side TradingPair AmountHave AmountWant OrderbookPrice AuctionID
       Nonce Signature set_Pubkey set_Side set_TradingPair set_AmountHave
       set_AmountWant set_AuctionID set_Nonce set_Signature Pair_Serialize
       AssetWant AssetHave].
  rewrite !copy_full by lia.
  rewrite String_length_string_of_list_byte,
    String.list_byte_of_string_of_list_byte.
  unfold uint64_of_len.
  repeat match goal with
         | L : Z.of_nat (length ?x) = ?n |- context [Z.of_nat (length ?x)] =>
             rewrite L
         end.
  unfold is_uint64, uint64_max in *.
  rewrite !Z.mod_small by lia.
  repeat match goal with P : PutUint64 _ = _ |- _ => rewrite P; clear P end.
  repeat match goal with A : elems _ = _ ++ _ |- _ => rewrite A; clear A end.
  rewrite Es1, <- !app_assoc. reflexivity.
Qed.

Lemma Deserialize_Ret_error (r a' : AuctionOrder) (data : Slice) (e : error) :
  Deserialize r data = Ret (a', Some e) ->
  len data < 93 /\ a' = r /\ e = ErrOrderTooShort (len data).
Proof.
  intros H. unfold Deserialize in H. rewrite minimumDataLength_93 in H.
  destruct (Z.ltb_spec (len data) 93) as [Hlt|Hge].
  { injection H as <- <-. auto. }
  exfalso.
  do 3 inv_step H.
  match goal with
  | E : slice_to _ 2 = Ret ?s |- _ =>
      pose proof (slice_to_Ret _ _ _ E) as (_ & Hl2 & _); unfold len in Hl2;
      rewrite (copy_full (vreplicate 2 x00) (elems s)) in H by lia;
      destruct (elems s) as [|pw [|ph [|? ?]]] eqn:Es1;
      cbn [length] in Hl2; try lia
  end.
  cbn [vec_to_list Pair_Deserialize] in H.
  repeat inv_step H.
  discriminate H.
Qed.

(** X1. A decoding that succeeds has consumed an encoding: when
    [Deserialize] returns an order and no error, the input begins with
    [Serialize] of that order. The amounts of the order are [uint64]
    values and its [OrderbookPrice] is the one the receiver had. *)
Theorem Deserialize_reencodes_to_consumed_prefix
    (r a' : AuctionOrder) (data : Slice) :
  Deserialize r data = Ret (a', None) ->
  exists t,
    elems data = Serialize a' ++ t /\
    OrderbookPrice a' = OrderbookPrice r /\
    is_uint64 (AmountHave a') /\ is_uint64 (AmountWant a').
Proof. apply Deserialize_Ret_canonical. Qed.

Lemma Deserialize_reencodes_to_consumed_prefix_witness :
  let data := full (Serialize sample_sell_order ++ [x07; x08]) in
  let a' := set_OrderbookPrice f64_zero sample_sell_order in
  Deserialize zero_AuctionOrder data = Ret (a', None) /\
  exists t,
    elems data = Serialize a' ++ t /\
    OrderbookPrice a' = OrderbookPrice zero_AuctionOrder /\
    is_uint64 (AmountHave a') /\ is_uint64 (AmountWant a').
Proof.
  cbv zeta.
  assert (H : Deserialize zero_AuctionOrder
                (full (Serialize sample_sell_order ++ [x07; x08]))
              = Ret (set_OrderbookPrice f64_zero sample_sell_order, None))
    by (vm_compute; reflexivity).
  split; [exact H|].
  exact (Deserialize_reencodes_to_consumed_prefix _ _ _ H).
Defined.

(** X2. On an input whose length is an [int], [Deserialize] returns an
    order exactly when the input begins with the encoding of a
    well-formed order. *)
Theorem Deserialize_succeeds_iff_encoding_prefix (r : AuctionOrder) (data : Slice) :
  len data <= int_max ->
  (exists a', Deserialize r data = Ret (a', None)) <->
  (exists a t, wf_AuctionOrder a /\ elems data = Serialize a ++ t).
Proof.
  intros Hlen. split.
  - intros (a' & H).
    destruct (Deserialize_Ret_canonical _ _ _ H) as (t & E & _ & Hh & Hw).
    exists a', t. split; [|exact E].
    assert (Hl : len data = Z.of_nat (length (Serialize a')) + Z.of_nat (length t)).
    { unfold len. rewrite E, length_app. lia. }
    rewrite length_Serialize in Hl.
    split; [exact Hh|]. split; [exact Hw|]. lia.
  - intros (a & t & Hwf & E). destruct data as [el sp]. cbn [elems] in E. subst el.
    eexists. now apply Deserialize_Serialize_app.
Qed.

Lemma Deserialize_succeeds_iff_encoding_prefix_witness :
  len (full short_order_bytes) <= int_max /\
  ((exists a', Deserialize zero_AuctionOrder (full short_order_bytes) = Ret (a', None))
   <-> (exists a t, wf_AuctionOrder a /\
                    elems (full short_order_bytes) = Serialize a ++ t)).
Proof.
  assert (H : len (full short_order_bytes) <= int_max) by (vm_compute; discriminate).
  split; [exact H|].
  exact (Deserialize_succeeds_iff_encoding_prefix zero_AuctionOrder
           (full short_order_bytes) H).
Defined.

Lemma Deserialize_trichotomy (r : AuctionOrder) (data : Slice) :
  (len data < 93 /\
   Deserialize r data = Ret (r, Some (ErrOrderTooShort (len data)))) \/
  (93 <= len data /\ exists a', Deserialize r data = Ret (a', None)) \/
  (93 <= len data /\ Deserialize r data = Panic).
Proof.
  destruct (Z.ltb_spec (len data) 93) as [Hlt|Hge].
  - left. split; [exact Hlt|]. apply Deserialize_too_short.
    now rewrite minimumDataLength_93.
  - right. destruct (Deserialize r data) as [[a' [e|]]|] eqn:E.
    + apply Deserialize_Ret_error in E. lia.
    + left. eauto.
    + right. auto.
Qed.

(** X3. The outcomes of [Deserialize]: below 93 bytes, the length error
    with the receiver untouched; from 93 bytes on, an order with no
    error, or a panic. No input makes it report an error of the trading
    pair, and no input of 93 bytes or more is answered with an error. *)
Theorem Deserialize_outcomes (r : AuctionOrder) (data : Slice) :
  (len data < 93 /\
   Deserialize r data = Ret (r, Some (ErrOrderTooShort (len data)))) \/
  (93 <= len data /\ exists a', Deserialize r data = Ret (a', None)) \/
  (93 <= len data /\ Deserialize r data = Panic).
Proof. apply Deserialize_trichotomy. Qed.

Lemma Serialize_side_length_field (a : AuctionOrder) (t : list byte) :
  take 8 (drop 51 (Serialize a ++ t))
  = PutUint64 (uint64_of_len (String.length (Side a))).
Proof.
  rewrite Serialize_layout.
  set (pre := vec_to_list (Pubkey a) ++ Pair_Serialize (TradingPair a) ++
              PutUint64 (AmountHave a) ++ PutUint64 (AmountWant a)).
  set (w := PutUint64 (uint64_of_len (String.length (Side a)))).
  set (post := String.list_byte_of_string (Side a) ++ vec_to_list (AuctionID a) ++
               vec_to_list (Nonce a) ++
               PutUint64 (uint64_of_len (length (Signature a))) ++ Signature a).
  replace (_ ++ t) with (pre ++ w ++ (post ++ t))
    by (unfold pre, w, post; rewrite <- !app_assoc; reflexivity).
  assert (Hpre : length pre = 51%nat).
  { unfold pre, Pair_Serialize.
    rewrite !length_app, length_vec_to_list, !length_PutUint64. reflexivity. }
  rewrite drop_app_length' by (symmetry; exact Hpre).
  now rewrite take_app_length' by reflexivity.
Qed.

(** X4. The side length that the input declares, the word at offset 51,
    is not checked against the input: when the input is shorter than the
    101 bytes of fixed width plus that length, [Deserialize] panics. *)
Theorem Deserialize_panics_on_declared_side_length_beyond_input
    (r : AuctionOrder) (data : Slice) (sideLen : Z) :
  93 <= len data ->
  Uint64 (take 8 (drop 51 (elems data))) = Ret sideLen ->
  len data < 101 + sideLen ->
  Deserialize r data = Panic.
Proof.
  intros Hge Hu Hlt.
  destruct (Deserialize_trichotomy r data) as [[H _]|[[_ (a' & H)]|[_ H]]];
    [lia| |exact H].
  exfalso.
  destruct (Deserialize_Ret_canonical _ _ _ H) as (t & E & _ & _ & _).
  assert (Hl : len data = Z.of_nat (length (Serialize a')) + Z.of_nat (length t)).
  { unfold len. rewrite E, length_app. lia. }
  rewrite length_Serialize in Hl.
  rewrite E, Serialize_side_length_field in Hu.
  assert (Hs : is_uint64 (uint64_of_len (String.length (Side a')))).
  { unfold is_uint64, uint64_of_len, uint64_max.
    pose proof (Z.mod_pos_bound (Z.of_nat (String.length (Side a'))) (2 ^ 64)).
    lia. }
  rewrite (Uint64_PutUint64 _ Hs) in Hu. injection Hu as <-.
  unfold uint64_of_len in Hlt.
  destruct (Z.ltb_spec (Z.of_nat (String.length (Side a'))) (2 ^ 64)) as [Hsm|Hbig].
  - rewrite Z.mod_small in Hlt by lia. lia.
  - pose proof (Z.mod_pos_bound (Z.of_nat (String.length (Side a'))) (2 ^ 64)).
    lia.
Qed.

Lemma Deserialize_panics_on_declared_side_length_beyond_input_witness :
  let data := full (replicate 51 x00 ++ replicate 8 xff ++ replicate 200 x00) in
  93 <= len data /\
  Uint64 (take 8 (drop 51 (elems data))) = Ret uint64_max /\
  len data < 101 + uint64_max /\
  Deserialize zero_AuctionOrder data = Panic.
Proof.
  cbv zeta.
  assert (H1 : 93 <= len (full (replicate 51 x00 ++ replicate 8 xff ++ replicate 200 x00)))
    by (vm_compute; discriminate).
  assert (H2 : Uint64 (take 8 (drop 51 (elems
                 (full (replicate 51 x00 ++ replicate 8 xff ++ replicate 200 x00)))))
               = Ret uint64_max) by (vm_compute; reflexivity).
  assert (H3 : len (full (replicate 51 x00 ++ replicate 8 xff ++ replicate 200 x00))
               < 101 + uint64_max) by (vm_compute; reflexivity).
  split; [exact H1|]. split; [exact H2|]. split; [exact H3|].
  exact (Deserialize_panics_on_declared_side_length_beyond_input
           zero_AuctionOrder _ uint64_max H1 H2 H3).
Defined.

Lemma Serialize_set_OrderbookPrice (p : float64) (a : AuctionOrder) :
  Serialize (set_OrderbookPrice p a) = Serialize a.
Proof. destruct a. reflexivity. Qed.

Lemma Serialize_prefix_inj (a b : AuctionOrder) :
  wf_AuctionOrder a -> wf_AuctionOrder b ->
  Serialize a `prefix_of` Serialize b ->
  b = set_OrderbookPrice (OrderbookPrice b) a.
Proof.
  intros Ha Hb [t Ht].
  pose proof (Deserialize_Serialize_app a b t [] Ha) as H1.
  pose proof (Deserialize_Serialize_app b b [] [] Hb) as H2.
  rewrite app_nil_r in H2. rewrite <- Ht, H2 in H1.
  assert (E : set_OrderbookPrice (OrderbookPrice b) b
              = set_OrderbookPrice (OrderbookPrice b) a) by congruence.
  rewrite <- E. destruct b. reflexivity.
Qed.

(** X5. The encoding delimits itself: when the encoding of a well-formed
    order is a prefix of the encoding of another, the two orders differ
    in [OrderbookPrice] at most and the two encodings are equal. *)
Theorem Serialize_prefix_free (a b : AuctionOrder) :
  wf_AuctionOrder a -> wf_AuctionOrder b ->
  Serialize a `prefix_of` Serialize b ->
  b = set_OrderbookPrice (OrderbookPrice b) a /\ Serialize a = Serialize b.
Proof.
  intros Ha Hb Hp. pose proof (Serialize_prefix_inj a b Ha Hb Hp) as E.
  split; [exact E|]. rewrite E. symmetry. apply Serialize_set_OrderbookPrice.
Qed.

Lemma Serialize_prefix_free_witness :
  wf_AuctionOrder sample_buy_order /\
  wf_AuctionOrder (set_OrderbookPrice f64_two sample_buy_order) /\
  Serialize sample_buy_order
    `prefix_of` Serialize (set_OrderbookPrice f64_two sample_buy_order) /\
  set_OrderbookPrice f64_two sample_buy_order
    = set_OrderbookPrice f64_two sample_buy_order /\
  Serialize sample_buy_order
    = Serialize (set_OrderbookPrice f64_two sample_buy_order).
Proof.
  assert (Ha : wf_AuctionOrder sample_buy_order).
  { repeat split; vm_compute; discriminate. }
  assert (Hb : wf_AuctionOrder (set_OrderbookPrice f64_two sample_buy_order)).
  { repeat split; vm_compute; discriminate. }
  assert (Hp : Serialize sample_buy_order
                 `prefix_of` Serialize (set_OrderbookPrice f64_two sample_buy_order)).
  { exists []. vm_compute. reflexivity. }
  split; [exact Ha|]. split; [exact Hb|]. split; [exact Hp|].
  exact (Serialize_prefix_free _ _ Ha Hb Hp).
Defined.

Lemma SerializeSignable_as_unsigned (a : AuctionOrder) :
  Serialize (set_Signature [] a) = SerializeSignable a ++ PutUint64 0.
Proof.
  rewrite Serialize_layout, SerializeSignable_layout, <- !app_assoc.
  destruct a as [pk sd tp h w obp aid nc sg].
  cbn [set_Signature Pubkey Side TradingPair AmountHave AmountWant
       AuctionID Nonce Signature length].
  rewrite app_nil_r. reflexivity.
Qed.

Lemma wf_set_Signature_nil (a : AuctionOrder) :
  wf_AuctionOrder a -> wf_AuctionOrder (set_Signature [] a).
Proof.
  intros (A & B & C & _).
  split; [exact A|]. split; [exact B|]. split; [exact C|].
  cbn [set_Signature Signature length]. unfold int_max. lia.
Qed.

(** X6. The bytes that are signed determine the signed fields, and
    nothing else: two well-formed orders have the same
    [SerializeSignable] exactly when they agree on [Pubkey], [Side],
    [TradingPair], [AmountHave], [AmountWant], [AuctionID] and [Nonce]. *)
Theorem SerializeSignable_determines_signed_fields (a b : AuctionOrder) :
  wf_AuctionOrder a -> wf_AuctionOrder b ->
  SerializeSignable a = SerializeSignable b <->
  Pubkey a = Pubkey b /\ Side a = Side b /\ TradingPair a = TradingPair b /\
  AmountHave a = AmountHave b /\ AmountWant a = AmountWant b /\
  AuctionID a = AuctionID b /\ Nonce a = Nonce b.
Proof.
  intros Ha Hb. split.
  - intros E.
    pose proof (wf_set_Signature_nil a Ha) as Ha'.
    pose proof (wf_set_Signature_nil b Hb) as Hb'.
    assert (Hp : Serialize (set_Signature [] a)
                   `prefix_of` Serialize (set_Signature [] b)).
    { rewrite !SerializeSignable_as_unsigned, E. reflexivity. }
    pose proof (Serialize_prefix_inj _ _ Ha' Hb' Hp) as Eq.
    destruct a as [pk sd tp h w obp aid nc sg], b as [pk' sd' tp' h' w' obp' aid' nc' sg'].
    cbn [set_Signature set_OrderbookPrice Pubkey Side TradingPair AmountHave
         AmountWant OrderbookPrice AuctionID Nonce Signature] in *.
    injection Eq as -> -> -> -> -> -> ->. repeat split.
  - intros (E1 & E2 & E3 & E4 & E5 & E6 & E7).
    rewrite !SerializeSignable_layout, E1, E2, E3, E4, E5, E6, E7. reflexivity.
Qed.

Lemma SerializeSignable_determines_signed_fields_witness :
  let a := sample_buy_order in
  let b := set_Signature [x01] (set_OrderbookPrice f64_two sample_buy_order) in
  wf_AuctionOrder a /\ wf_AuctionOrder b /\
  (SerializeSignable a = SerializeSignable b <->
   Pubkey a = Pubkey b /\ Side a = Side b /\ TradingPair a = TradingPair b /\
   AmountHave a = AmountHave b /\ AmountWant a = AmountWant b /\
   AuctionID a = AuctionID b /\ Nonce a = Nonce b).
Proof.
  cbv zeta.
  assert (Ha : wf_AuctionOrder sample_buy_order).
  { repeat split; vm_compute; discriminate. }
  assert (Hb : wf_AuctionOrder
                 (set_Signature [x01] (set_OrderbookPrice f64_two sample_buy_order))).
  { repeat split; vm_compute; discriminate. }
  split; [exact Ha|]. split; [exact Hb|].
  exact (SerializeSignable_determines_signed_fields _ _ Ha Hb).
Defined.

(** X7. Sizes: [Serialize] gives 101 bytes plus the side and the
    signature, [SerializeSignable] 93 bytes plus the side; an encoding is
    always longer than the minimum that [Deserialize] asks for. *)
Theorem Serialize_lengths (a : AuctionOrder) :
  Z.of_nat (length (Serialize a))
    = 101 + Z.of_nat (String.length (Side a)) + Z.of_nat (length (Signature a)) /\
  Z.of_nat (length (SerializeSignable a)) = 93 + Z.of_nat (String.length (Side a)) /\
  minimumDataLength a < Z.of_nat (length (Serialize a)).
Proof.
  pose proof (length_Serialize a) as H. split; [exact H|]. split.
  - rewrite SerializeSignable_layout. unfold Pair_Serialize.
    rewrite !length_app, !length_vec_to_list, !length_PutUint64,
      length_list_byte_of_string.
    cbn [length]. lia.
  - rewrite minimumDataLength_93. lia.
Qed.

(** X8. No order is both a buy and a sell order. [OppositeSide] is not
    empty exactly on buy and sell orders; on those it turns buy into
    sell and sell into buy, and taking the opposite twice gives the side
    back. *)
Theorem OppositeSide_flips_valid_sides (a : AuctionOrder) :
  IsBuySide a && IsSellSide a = false /\
  (IsBuySide a = true \/ IsSellSide a = true <-> OppositeSide a <> EmptyString) /\
  (IsBuySide a = true \/ IsSellSide a = true ->
   IsBuySide (set_Side (OppositeSide a) a) = IsSellSide a /\
   IsSellSide (set_Side (OppositeSide a) a) = IsBuySide a /\
   OppositeSide (set_Side (OppositeSide a) a) = Side a).
Proof.
  unfold OppositeSide, IsBuySide, IsSellSide.
  cbn [Side set_Side].
  destruct (String.eqb_spec (Side a) "buy") as [Eb|Nb].
  - rewrite Eb. cbn. split; [reflexivity|].
    split; [split; [discriminate|auto]|]. intros _. auto.
  - split; [reflexivity|].
    destruct (String.eqb_spec (Side a) "sell") as [Es|Ns].
    + rewrite Es. cbn. split; [split; [discriminate|auto]|]. intros _. auto.
    + split.
      * split; [intros [H|H]; discriminate|]. intros H. now contradiction H.
      * intros [H|H]; discriminate.
Qed.

Lemma is_truncation_below_one (q : Q) (w : Z) :
  (0 <= q)%Q -> (q < 1)%Q -> is_truncation q w -> w = 0.
Proof.
  intros H0 H1 [Hlo Hhi].
  assert (A : (inject_Z w < 1)%Q) by (eapply Qle_lt_trans; eassumption).
  assert (B : (0 < inject_Z (w + 1))%Q) by (eapply Qle_lt_trans; eassumption).
  unfold Qlt in A, B. cbn in A, B. lia.
Qed.

(** X10. Setting the amount wanted can make an order that has no price:
    on a buy order, a price that brings [AmountHave * price] below one
    is accepted, zero is stored, and [Price] then fails on the zero
    [AmountWant]. *)
Theorem SetAmountWant_below_one_unit_then_Price_fails
    (oor : float64 -> Z) (a : AuctionOrder) (price : float64) (q : Q) :
  f64_leb price f64_zero = false ->
  IsBuySide a = true ->
  float64_to_Q (f64_mul (float64_of_uint64 (AmountHave a)) price) = Some q ->
  (0 <= q)%Q -> (q < 1)%Q ->
  SetAmountWant oor a price = (set_AmountWant 0 a, None) /\
  Price (set_AmountWant 0 a) = (f64_zero, Some ErrZeroAmountWant).
Proof.
  intros Hp Hb Hq H0 H1. split.
  - unfold SetAmountWant. rewrite Hp, Hb.
    assert (Ht : is_truncation q
              (uint64_of_float64 oor
                 (f64_mul (float64_of_uint64 (AmountHave a)) price))).
    { apply uint64_of_float64_truncates; [exact Hq|exact H0|].
      eapply Qlt_trans; [exact H1|]. reflexivity. }
    rewrite (is_truncation_below_one q _ H0 H1 Ht). reflexivity.
  - apply Price_zero_want. reflexivity.
Qed.

Lemma SetAmountWant_below_one_unit_then_Price_fails_witness :
  let a := sample_order "buy" 1 7 in
  f64_leb f64_three_quarters f64_zero = false /\
  IsBuySide a = true /\
  float64_to_Q (f64_mul (float64_of_uint64 (AmountHave a)) f64_three_quarters)
    = Some (6755399441055744 # 9007199254740992)%Q /\
  SetAmountWant (fun _ => 0) a f64_three_quarters = (set_AmountWant 0 a, None) /\
  Price (set_AmountWant 0 a) = (f64_zero, Some ErrZeroAmountWant).
Proof.
  cbv zeta.
  assert (Hq : float64_to_Q
                 (f64_mul (float64_of_uint64 (AmountHave (sample_order "buy" 1 7)))
                    f64_three_quarters)
               = Some (6755399441055744 # 9007199254740992)%Q)
    by (vm_compute; reflexivity).
  split; [reflexivity|]. split; [reflexivity|]. split; [exact Hq|].
  apply (SetAmountWant_below_one_unit_then_Price_fails (fun _ => 0)
           (sample_order "buy" 1 7) f64_three_quarters _ eq_refl eq_refl Hq).
  - vm_compute. discriminate.
  - vm_compute. reflexivity.
Defined.

Section PipelineFacts.

Context {PuzzleRSW HashTimelock Rand : Type}.
Variable Create :
  Rand -> Z -> list byte -> list byte * Puzzle PuzzleRSW HashTimelock * option error.
Variable Solve : list byte -> Puzzle PuzzleRSW HashTimelock -> Slice * option error.

(** X11. A call of [SolveRC5AuctionOrderAsync] that returns has sent one
    result and no more, after what was sent before; the result points to
    the order it was called on, and its error tells which step failed:
    none with the decoded order, the solver's with no order, or the
    decoder's with the order as far as it was decoded. *)
Theorem SolveRC5AuctionOrderAsync_sends_exactly_one
    (h : heap) (e : loc) (ch ch' : list OrderPuzzleResult) :
  SolveRC5AuctionOrderAsync Solve h e ch = Ret ch' ->
  exists (enc : EncryptedAuctionOrder PuzzleRSW HashTimelock) (r : OrderPuzzleResult),
    h !! e = Some enc /\
    ch' = ch ++ [r] /\
    Encrypted r = Some e /\
    match Err r with
    | None =>
        exists a orderBytes,
          Solve (OrderCiphertext enc) (OrderPuzzle enc) = (orderBytes, None) /\
          Deserialize zero_AuctionOrder orderBytes = Ret (a, None) /\
          Auction r = Some a
    | Some (ErrSolvingPuzzle cause) =>
        snd (Solve (OrderCiphertext enc) (OrderPuzzle enc)) = Some cause /\
        Auction r = None
    | Some (ErrDeserializingSolved cause) =>
        exists a orderBytes,
          Solve (OrderCiphertext enc) (OrderPuzzle enc) = (orderBytes, None) /\
          Deserialize zero_AuctionOrder orderBytes = Ret (a, Some cause) /\
          Auction r = Some a
    | Some _ => False
    end.
Proof.
  intros H. destruct (h !! e) as [enc|] eqn:Hh.
  - rewrite (SolveRC5AuctionOrderAsync_cases Solve h e enc ch Hh) in H.
    exists enc.
    destruct (Solve (OrderCiphertext enc) (OrderPuzzle enc))
      as [orderBytes [cause|]] eqn:Hs.
    + injection H as <-. eexists. repeat split.
    + destruct (Deserialize zero_AuctionOrder orderBytes)
        as [[a [cause|]]|] eqn:Hd; [| |discriminate].
      * injection H as <-. eexists. split; [reflexivity|].
        split; [reflexivity|]. split; [reflexivity|]. cbn. eauto.
      * injection H as <-. eexists. split; [reflexivity|].
        split; [reflexivity|]. split; [reflexivity|]. cbn. eauto.
  - unfold SolveRC5AuctionOrderAsync in H. rewrite Hh in H. discriminate.
Qed.

(** X12. When the puzzle solves to fewer than 93 bytes, none included,
    the result carries the decoder's length error, and its [Auction] is
    not nil: it is the zero order that was allocated for decoding. *)
Theorem SolveRC5AuctionOrderAsync_short_plaintext
    (h : heap) (e : loc) (enc : EncryptedAuctionOrder PuzzleRSW HashTimelock)
    (ch : list OrderPuzzleResult) (orderBytes : Slice) :
  h !! e = Some enc ->
  Solve (OrderCiphertext enc) (OrderPuzzle enc) = (orderBytes, None) ->
  len orderBytes < 93 ->
  SolveRC5AuctionOrderAsync Solve h e ch =
    Ret (ch ++ [mkOrderPuzzleResult (Some e) (Some zero_AuctionOrder)
                  (Some (ErrDeserializingSolved
                           (ErrOrderTooShort (len orderBytes))))]).
Proof.
  intros Hh Hs Hlen.
  rewrite (SolveRC5AuctionOrderAsync_cases Solve h e enc ch Hh), Hs.
  rewrite Deserialize_too_short by (rewrite minimumDataLength_93; exact Hlen).
  reflexivity.
Qed.

(** X13. Wrapping and solving compose: for a puzzle algebra whose solver
    gives back the payload of what it created, the result sent for a
    wrapped well-formed order carries that order (with a zero
    [OrderbookPrice]) and no error, and the auction the envelope is
    bound to is the auction of the recovered order. *)
Theorem TurnIntoEncryptedOrder_then_Solve_recovers_order
    (rnd : Rand) (a : AuctionOrder) (t : Z)
    (enc : EncryptedAuctionOrder PuzzleRSW HashTimelock)
    (h : heap) (e : loc) (ch : list OrderPuzzleResult) :
  (forall ct pz payload,
     Create rnd t payload = (ct, pz, None) ->
     exists sp, Solve ct pz = (mkSlice payload sp, None)) ->
  wf_AuctionOrder a ->
  TurnIntoEncryptedOrder Create rnd a t = (enc, None) ->
  h !! e = Some enc ->
  SolveRC5AuctionOrderAsync Solve h e ch =
    Ret (ch ++ [mkOrderPuzzleResult (Some e)
                  (Some (set_OrderbookPrice f64_zero a)) None]) /\
  IntendedAuction enc = AuctionID (set_OrderbookPrice f64_zero a).
Proof.
  intros Hrt Hwf Ht Hh.
  unfold TurnIntoEncryptedOrder in Ht.
  destruct (Create rnd t (Serialize a)) as [[ct pz] [cause|]] eqn:Hc;
    [discriminate|].
  injection Ht as <-. cbn [OrderCiphertext OrderPuzzle IntendedAuction] in *.
  destruct (Hrt _ _ _ Hc) as (sp & Hs).
  split; [|destruct a; reflexivity].
  rewrite (SolveRC5AuctionOrderAsync_cases Solve h e _ ch Hh).
  cbn [OrderCiphertext OrderPuzzle]. rewrite Hs.
  rewrite <- (app_nil_r (Serialize a)).
  rewrite (Deserialize_Serialize_app a zero_AuctionOrder [] sp Hwf).
  reflexivity.
Qed.

End PipelineFacts.

Lemma SolveRC5AuctionOrderAsync_sends_exactly_one_witness :
  let enc := toy_envelope (RSW true) in
  let h : heap := {[ 5%positive := enc ]} in
  let r := mkOrderPuzzleResult (Some 5%positive) (Some zero_AuctionOrder)
             (Some (ErrDeserializingSolved (ErrOrderTooShort 3))) in
  SolveRC5AuctionOrderAsync toy_solve h 5%positive [] = Ret [r] /\
  exists enc' r',
    h !! 5%positive = Some enc' /\ [r] = [] ++ [r'] /\
    Encrypted r' = Some 5%positive.
Proof.
  cbv zeta.
  assert (H : SolveRC5AuctionOrderAsync toy_solve
                ({[ 5%positive := toy_envelope (RSW true) ]} : heap) 5%positive []
              = Ret [mkOrderPuzzleResult (Some 5%positive) (Some zero_AuctionOrder)
                       (Some (ErrDeserializingSolved (ErrOrderTooShort 3)))])
    by (vm_compute; reflexivity).
  split; [exact H|].
  destruct (SolveRC5AuctionOrderAsync_sends_exactly_one toy_solve _ _ _ _ H)
    as (enc' & r' & A & B & C & _).
  exists enc', r'. auto.
Defined.

Lemma SolveRC5AuctionOrderAsync_short_plaintext_witness :
  let enc := toy_envelope (RSW true) in
  let h : heap := {[ 5%positive := enc ]} in
  h !! 5%positive = Some enc /\
  toy_solve (OrderCiphertext enc) (OrderPuzzle enc) = (full [x10; x20; x30], None) /\
  len (full [x10; x20; x30]) < 93 /\
  SolveRC5AuctionOrderAsync toy_solve h 5%positive [] =
    Ret [mkOrderPuzzleResult (Some 5%positive) (Some zero_AuctionOrder)
           (Some (ErrDeserializingSolved (ErrOrderTooShort 3)))].
Proof.
  cbv zeta.
  assert (H1 : ({[ 5%positive := toy_envelope (RSW true) ]} : heap) !! 5%positive
               = Some (toy_envelope (RSW true))) by reflexivity.
  assert (H3 : len (full [x10; x20; x30]) < 93) by reflexivity.
  split; [exact H1|]. split; [reflexivity|]. split; [exact H3|].
  exact (SolveRC5AuctionOrderAsync_short_plaintext toy_solve _ 5%positive _ []
           (full [x10; x20; x30]) H1 eq_refl H3).
Defined.

Lemma toy_solve_inverts_toy_create (t : Z) (ct : list byte) (pz : Puzzle bool bool)
    (payload : list byte) :
  toy_create tt t payload = (ct, pz, None) ->
  exists sp, toy_solve ct pz = (mkSlice payload sp, None).
Proof.
  unfold toy_create, toy_solve, full. intros [= <- <-]. exists []. reflexivity.
Defined.

Lemma TurnIntoEncryptedOrder_then_Solve_recovers_order_witness :
  let enc := mkEncryptedAuctionOrder (Serialize sample_sell_order)
               (RSW true : Puzzle bool bool) (AuctionID sample_sell_order) in
  let h : heap := {[ 9%positive := enc ]} in
  wf_AuctionOrder sample_sell_order /\
  TurnIntoEncryptedOrder toy_create tt sample_sell_order 30000 = (enc, None) /\
  h !! 9%positive = Some enc /\
  SolveRC5AuctionOrderAsync toy_solve h 9%positive [] =
    Ret [mkOrderPuzzleResult (Some 9%positive)
           (Some (set_OrderbookPrice f64_zero sample_sell_order)) None] /\
  IntendedAuction enc = AuctionID (set_OrderbookPrice f64_zero sample_sell_order).
Proof.
  cbv zeta.
  assert (Hwf : wf_AuctionOrder sample_sell_order).
  { repeat split; vm_compute; discriminate. }
  assert (Hh : ({[ 9%positive :=
                   mkEncryptedAuctionOrder (Serialize sample_sell_order)
                     (RSW true : Puzzle bool bool) (AuctionID sample_sell_order) ]}
                : heap) !! 9%positive
               = Some (mkEncryptedAuctionOrder (Serialize sample_sell_order)
                         (RSW true : Puzzle bool bool) (AuctionID sample_sell_order)))
    by reflexivity.
  split; [exact Hwf|]. split; [reflexivity|]. split; [exact Hh|].
  exact (TurnIntoEncryptedOrder_then_Solve_recovers_order toy_create toy_solve tt
           sample_sell_order 30000 _ _ 9%positive []
           (toy_solve_inverts_toy_create 30000) Hwf eq_refl Hh).
Defined.

(** ** The registrations of the gob envelope, repeated *)

Section EnvelopeRegistrationFacts.

Context {PuzzleRSW HashTimelock : Type}.
Context {codecRSW : GobCodec PuzzleRSW} {codecHTL : GobCodec HashTimelock}.

(** X14. The registrations that open [Serialize] and [Deserialize] of an
    envelope can be repeated: after one call has returned, a further
    call of either finds the registry as it is, leaves it unchanged and
    does not panic while registering. *)
Theorem Envelope_registrations_are_idempotent
    (r r' : Registry) (e : EncryptedAuctionOrder PuzzleRSW HashTimelock)
    (out : list byte * option error) :
  Envelope_Serialize r e = Ret (r', out) ->
  Envelope_Serialize r' e = Ret (r', out) /\
  forall (recv : EncryptedAuctionOrder PuzzleRSW HashTimelock) (raw : list byte),
    exists res, Envelope_Deserialize r' recv raw = Ret (r', res).
Proof.
  rewrite Envelope_Serialize_registers.
  destruct (register_all r) as [r1|] eqn:Hr; [|discriminate].
  intros H.
  assert (E : r1 = r').
  { destruct (gobEncode r1 e); injection H as <- _; reflexivity. }
  subst r1. pose proof (register_all_again _ _ Hr) as Hagain. split.
  - rewrite Envelope_Serialize_registers, Hagain. exact H.
  - intros recv raw. rewrite Envelope_Deserialize_registers, Hagain.
    destruct (gobDecode r' recv raw) as [e' [err|]]; eauto.
Qed.

End EnvelopeRegistrationFacts.

Lemma Envelope_registrations_are_idempotent_witness :
  exists r' out,
    @Envelope_Serialize bool bool toy_codec toy_codec empty_Registry
      (toy_envelope (RSW true)) = Ret (r', out) /\
    @Envelope_Serialize bool bool toy_codec toy_codec r'
      (toy_envelope (RSW true)) = Ret (r', out) /\
    forall (recv : EncryptedAuctionOrder bool bool) (raw : list byte),
      exists res,
        @Envelope_Deserialize bool bool toy_codec toy_codec r' recv raw
        = Ret (r', res).
Proof.
  eexists _, _.
  split; [vm_compute; reflexivity|].
  apply (@Envelope_registrations_are_idempotent bool bool toy_codec toy_codec
           empty_Registry).
  vm_compute. reflexivity.
Defined.

(** ** Registering an account *)

Section AccountCommandsFacts.

Context {PublicKey : Type}.
Variable Verify : list byte -> PublicKey * option error.
Variable GetAddr : coinParams -> PublicKey -> string * option error.
Variable RegisterUser : PublicKey -> gmap coinParams string -> option error.

Lemma Register_addresses_spec (pk : PublicKey) (wallets : list coinParams)
    (m : gmap coinParams string) (calls : list (@ServerCall PublicKey)) :
  exists visited,
    visited `prefix_of` wallets /\
    snd (fst (Register_addresses GetAddr pk wallets m calls))
      = calls ++ map (fun p => CallGetAddrForCoin p pk) visited /\
    (forall p, fst (fst (Register_addresses GetAddr pk wallets m calls)) !! p
               = if decide (p ∈ visited) then Some (fst (GetAddr p pk)) else m !! p) /\
    match snd (Register_addresses GetAddr pk wallets m calls) with
    | None => visited = wallets /\
              Forall (fun p => snd (GetAddr p pk) = None) wallets
    | Some e => exists p, last visited = Some p /\ snd (GetAddr p pk) = Some e
    end.
Proof.
  revert m calls. induction wallets as [|p ws IH]; intros m calls.
  - exists []. cbn. rewrite app_nil_r. repeat split; auto.
  - cbn [Register_addresses]. destruct (GetAddr p pk) as [addr [e|]] eqn:Eg.
    + exists [p]. cbn. split; [exists ws; reflexivity|]. split; [reflexivity|].
      split.
      * intros q. destruct (decide (q ∈ [p])) as [Hin|Hn].
        -- apply list_elem_of_singleton in Hin. subst q.
           rewrite lookup_insert_eq, Eg. reflexivity.
        -- rewrite lookup_insert_ne; [reflexivity|].
           intros ->. apply Hn. now apply list_elem_of_singleton.
      * exists p. rewrite Eg. auto.
    + destruct (IH (<[p:=addr]> m) (calls ++ [CallGetAddrForCoin p pk]))
        as (vis & Hpre & Hcalls & Hmap & Herr).
      exists (p :: vis). split; [now apply prefix_cons|].
      split; [rewrite Hcalls, <- app_assoc; reflexivity|].
      split.
      * intros q. rewrite Hmap.
        destruct (decide (q ∈ vis)) as [Hin|Hn].
        -- rewrite decide_True by (now right). reflexivity.
        -- destruct (decide (q = p)) as [->|Hqp].
           ++ rewrite decide_True by left. rewrite lookup_insert_eq, Eg. reflexivity.
           ++ rewrite decide_False.
              ** now rewrite lookup_insert_ne.
              ** intros Hin. apply elem_of_cons in Hin as [?|?]; auto.
      * destruct (snd (Register_addresses GetAddr pk ws (<[p:=addr]> m)
                         (calls ++ [CallGetAddrForCoin p pk]))) as [e|].
        -- destruct Herr as (q & Hl & Hq). exists q. split; [|exact Hq].
           destruct vis; [discriminate|]. exact Hl.
        -- destruct Herr as [-> Hall]. split; [reflexivity|].
           constructor; [rewrite Eg; reflexivity|exact Hall].
Qed.

Lemma Forall_not_locking_lookups (pk : PublicKey) (visited : list coinParams) :
  Forall (fun c : @ServerCall PublicKey => is_locking_call c = false)
    (map (fun p => CallGetAddrForCoin p pk) visited).
Proof.
  induction visited as [|p vs IH]; cbn; constructor; auto.
Qed.

(** X15. [Register] never returns with the ingest lock held, and writes
    to the database under the lock only: its calls to the server are
    queries, followed by nothing or by lock, [RegisterUser], unlock (and
    then the log line of a successful registration). *)
Theorem Register_releases_the_ingest_lock
    (signature : list byte) (wallets : list coinParams) :
  exists queries tail,
    fst (Register Verify GetAddr RegisterUser signature wallets) = queries ++ tail /\
    Forall (fun c => is_locking_call c = false) queries /\
    (tail = [] \/
     exists pk m,
       tail = [CallLockIngests; CallRegisterUser pk m; CallUnlockIngests] \/
       tail = [CallLockIngests; CallRegisterUser pk m; CallUnlockIngests;
               CallLogInfof pk]).
Proof.
  unfold Register. destruct (Verify signature) as [pk [e|]].
  { exists [CallRegistrationStringVerify signature], []. cbn.
    split; [reflexivity|]. split; [repeat constructor|left; reflexivity]. }
  destruct (Register_addresses_spec pk wallets ∅
              [CallRegistrationStringVerify signature])
    as (vis & _ & Hcalls & _ & _).
  destruct (Register_addresses GetAddr pk wallets ∅
              [CallRegistrationStringVerify signature]) as [[m calls] err].
  cbn [fst snd] in Hcalls. subst calls.
  assert (HQ : Forall (fun c : @ServerCall PublicKey => is_locking_call c = false)
                 ([CallRegistrationStringVerify signature] ++
                  map (fun p => CallGetAddrForCoin p pk) vis)).
  { apply Forall_app. split; [repeat constructor|apply Forall_not_locking_lookups]. }
  set (Q := [CallRegistrationStringVerify signature] ++
            map (fun p => CallGetAddrForCoin p pk) vis) in *.
  destruct err as [e|].
  { exists Q, []. cbn [fst]. rewrite app_nil_r.
    split; [reflexivity|]. split; [exact HQ|left; reflexivity]. }
  destruct (RegisterUser pk m) as [e|]; cbn [fst].
  - exists Q, [CallLockIngests; CallRegisterUser pk m; CallUnlockIngests].
    split; [rewrite <- !app_assoc; reflexivity|]. split; [exact HQ|].
    right. exists pk, m. left. reflexivity.
  - exists Q, [CallLockIngests; CallRegisterUser pk m; CallUnlockIngests;
              CallLogInfof pk].
    split; [rewrite <- !app_assoc; reflexivity|]. split; [exact HQ|].
    right. exists pk, m. right. reflexivity.
Qed.

(** X16. When [Register] reaches the database, the signature was
    verified, every wallet gave an address without error, and the map it
    stores holds the address of every wallet and nothing else. *)
Theorem Register_stores_one_address_per_wallet
    (signature : list byte) (wallets : list coinParams)
    (pk : PublicKey) (m : gmap coinParams string) :
  CallRegisterUser pk m
    ∈ fst (Register Verify GetAddr RegisterUser signature wallets) ->
  Verify signature = (pk, None) /\
  Forall (fun p => snd (GetAddr p pk) = None) wallets /\
  (forall p, m !! p = if decide (p ∈ wallets)
                      then Some (fst (GetAddr p pk)) else None).
Proof.
  unfold Register. destruct (Verify signature) as [pk0 [e|]].
  { cbn. intros H. apply list_elem_of_singleton in H. discriminate. }
  destruct (Register_addresses_spec pk0 wallets ∅
              [CallRegistrationStringVerify signature])
    as (vis & _ & Hcalls & Hmap & Herr).
  destruct (Register_addresses GetAddr pk0 wallets ∅
              [CallRegistrationStringVerify signature]) as [[m0 calls] err].
  cbn [fst snd] in Hcalls, Hmap, Herr. subst calls.
  assert (Hq : forall l : list (@ServerCall PublicKey),
             Forall (fun c => is_locking_call c = false) l ->
             CallRegisterUser pk m ∈ l -> False).
  { intros l Hl Hin. rewrite Forall_forall in Hl. apply Hl in Hin. discriminate. }
  assert (HQ : Forall (fun c : @ServerCall PublicKey => is_locking_call c = false)
                 ([CallRegistrationStringVerify signature] ++
                  map (fun p => CallGetAddrForCoin p pk0) vis)).
  { apply Forall_app. split; [repeat constructor|apply Forall_not_locking_lookups]. }
  destruct err as [e|].
  { cbn [fst]. intros Hin. exfalso. exact (Hq _ HQ Hin). }
  destruct Herr as [-> Hall].
  set (Q := [CallRegistrationStringVerify signature] ++
            map (fun p => CallGetAddrForCoin p pk0) wallets) in *.
  intros H.
  assert (E : pk = pk0 /\ m = m0).
  { destruct (RegisterUser pk0 m0); cbn [fst] in H;
      rewrite ?elem_of_app, ?elem_of_cons, ?elem_of_nil in H;
      decompose [or] H; clear H;
      try contradiction; try discriminate;
      try (exfalso; eapply Hq; [exact HQ|eassumption]);
      match goal with
      | Hx : CallRegisterUser _ _ = CallRegisterUser _ _ |- _ =>
          injection Hx as -> ->; auto
      end. }
  destruct E as [-> ->]. split; [reflexivity|]. split; [exact Hall|].
  intros p. rewrite Hmap. destruct (decide (p ∈ wallets)); [reflexivity|].
  apply lookup_empty.
Qed.

(** X17. Errors of [Register]: a signature that does not verify is
    reported as the server reported it, after that one call and no
    other; an error of an address lookup or of the database is reported
    wrapped; no error is reported only when the signature verified, all
    lookups succeeded and the database stored the user. *)
Theorem Register_error_wrapping
    (signature : list byte) (wallets : list coinParams) :
  let pk := fst (Verify signature) in
  match snd (Register Verify GetAddr RegisterUser signature wallets) with
  | Some (ErrServer e) =>
      snd (Verify signature) = Some e /\
      fst (Register Verify GetAddr RegisterUser signature wallets)
        = [CallRegistrationStringVerify signature]
  | Some (ErrRegisteringUser e) =>
      snd (Verify signature) = None /\
      ((exists p, p ∈ wallets /\ snd (GetAddr p pk) = Some e) \/
       (exists m, RegisterUser pk m = Some e))
  | None =>
      snd (Verify signature) = None /\
      Forall (fun p => snd (GetAddr p pk) = None) wallets /\
      exists m, RegisterUser pk m = None /\
                CallRegisterUser pk m
                  ∈ fst (Register Verify GetAddr RegisterUser signature wallets)
  end.
Proof.
  cbv zeta. unfold Register. destruct (Verify signature) as [pk [e|]].
  { cbn. auto. }
  cbn [fst snd].
  destruct (Register_addresses_spec pk wallets ∅
              [CallRegistrationStringVerify signature])
    as (vis & Hpre & Hcalls & Hmap & Herr).
  destruct (Register_addresses GetAddr pk wallets ∅
              [CallRegistrationStringVerify signature]) as [[m calls] err].
  cbn [fst snd] in Hcalls, Hmap, Herr.
  destruct err as [e|].
  { cbn [snd]. split; [reflexivity|]. left.
    destruct Herr as (p & Hl & Hp). exists p. split; [|exact Hp].
    destruct Hpre as [rest ->]. apply elem_of_app. left.
    apply last_Some in Hl as [l' ->]. apply elem_of_app. right. now left. }
  destruct Herr as [-> Hall].
  destruct (RegisterUser pk m) as [e|] eqn:Er; cbn [fst snd].
  - split; [reflexivity|]. right. eauto.
  - split; [reflexivity|]. split; [exact Hall|]. exists m. split; [exact Er|].
    rewrite !elem_of_app. left. right. now left.
Qed.

End AccountCommandsFacts.

Lemma Register_stores_one_address_per_wallet_witness :
  let m : gmap coinParams string :=
    <[2%positive := "addr"]> (<[1%positive := "addr"]> ∅) in
  CallRegisterUser 1%nat m
    ∈ fst (Register toy_verify toy_get_addr toy_register_user [x01]
             [1%positive; 2%positive]) /\
  toy_verify [x01] = (1%nat, None) /\
  Forall (fun p => snd (toy_get_addr p 1%nat) = None) [1%positive; 2%positive] /\
  (forall p, m !! p = if decide (p ∈ [1%positive; 2%positive])
                      then Some (fst (toy_get_addr p 1%nat)) else None).
Proof.
  cbv zeta.
  assert (H : CallRegisterUser 1%nat
                (<[2%positive := "addr"]> (<[1%positive := "addr"]> ∅)
                 : gmap coinParams string)
                ∈ fst (Register toy_verify toy_get_addr toy_register_user [x01]
                         [1%positive; 2%positive])).
  { cbn. do 4 apply list_elem_of_further. apply list_elem_of_here. }
  split; [exact H|].
  exact (Register_stores_one_address_per_wallet toy_verify toy_get_addr
           toy_register_user [x01] [1%positive; 2%positive] 1%nat _ H).
Defined.
